(** * PDF-QA-Chatbot: the request handlers of [server.js]

    A shallow embedding of the two Express handlers ([POST /upload],
    [POST /ask]) and of the helpers [transformQuery] and [generateAnswer],
    followed by the properties of the question-answering pipeline.

    Conventions of the embedding.
    - A JavaScript string is a [string]: a sequence of code units below 256
      (the Latin-1 part of UTF-16).  [toLowerCase] and [trim] are written out
      for that range.
    - A similarity score reaches the server as a JSON number, hence a finite
      double; it is modelled by its exact rational value, and [score >= 0.5]
      by [Qle_bool (1#2) score] (0.5 is a double, the comparison is exact).
    - [sessionStore], a [Map] keyed by strings, is a [gmap string Session].
    - Every external service (PDF loader, splitter, embedding model, vector
      store, the two generative models) is a field of [Collaborators]: a
      function from the arguments of the call to a [Completion], which is a
      value or a thrown error.  A handler calls each of them at most once,
      so one record per request describes an arbitrary behaviour.
    - The handlers run in the monad [M]: state (the session store and the
      log of collaborator calls) plus exceptions, with [try_catch].
    - [console.log] and [console.error] are left out: on the values that
      reach them they return normally and change nothing that is modelled. *)

From Stdlib Require Import Ascii String QArith.
From stdpp Require Import gmap strings list fin_maps pretty sorting.

Local Open Scope string_scope.

(** ** Strings *)

Module JsString.

Definition unit_of_N (n : N) : ascii := ascii_of_N n.

Definition LF : string := String (unit_of_N 10) "".
Definition DQUOTE : string := String (unit_of_N 34) "".

(** [WhiteSpace] and [LineTerminator] code units below 256:
    TAB, LF, VT, FF, CR, SP and NBSP. *)
Definition isWhiteSpace (c : ascii) : bool :=
  bool_decide (N_of_ascii c ∈ [9; 10; 11; 12; 13; 32; 160]%N).

Fixpoint trimStart (s : string) : string :=
  match s with
  | "" => ""
  | String c s' => if isWhiteSpace c then trimStart s' else s
  end.

Fixpoint trimEnd (s : string) : string :=
  match s with
  | "" => ""
  | String c s' =>
      match trimEnd s' with
      | "" => if isWhiteSpace c then "" else String c ""
      | t => String c t
      end
  end.

(** [String.prototype.trim] *)
Definition trim (s : string) : string := trimEnd (trimStart s).

(** Lower-case mapping of one code unit: A-Z and the Latin-1 capitals
    (U+00C0-U+00DE without the multiplication sign U+00D7). *)
Definition lowerUnit (c : ascii) : ascii :=
  let n := N_of_ascii c in
  if ((65 <=? n) && (n <=? 90)
      || (192 <=? n) && (n <=? 222) && negb (n =? 215))%N
  then ascii_of_N (n + 32) else c.

(** [String.prototype.toLowerCase] *)
Fixpoint toLowerCase (s : string) : string :=
  match s with
  | "" => ""
  | String c s' => String (lowerUnit c) (toLowerCase s')
  end.

(** [String.prototype.includes] *)
Fixpoint includes (s p : string) : bool :=
  String.prefix p s
  || match s with
     | "" => false
     | String _ s' => includes s' p
     end.

(** [Array.prototype.join] on an array of strings *)
Fixpoint join (sep : string) (l : list string) : string :=
  match l with
  | [] => ""
  | [x] => x
  | x :: l' => x +:+ sep +:+ join sep l'
  end.

(** A string is truthy when it is not empty. *)
Definition truthy (s : string) : bool :=
  match s with "" => false | _ => true end.

End JsString.
Import JsString.

(** ** Data model *)

Inductive Role := user | model.

Record Part := { text : string }.

(** One entry of a session's [history]: [{ role, parts: [{ text }] }]. *)
Record Turn := { role : Role; parts : list Part }.

Record Session := { namespace : string; history : list Turn }.

(** A LangChain document: the chunk text and its metadata. *)
Record Document := { pageContent : string; metadata : string }.

Definition Vector := list Q.

Definition RetrievalResult : Type := Document * Q.

#[global] Instance Role_eq_dec : EqDecision Role.
Proof. solve_decision. Defined.
#[global] Instance Part_eq_dec : EqDecision Part.
Proof. solve_decision. Defined.
#[global] Instance Turn_eq_dec : EqDecision Turn.
Proof. solve_decision. Defined.

Definition userTurn (question : string) : Turn :=
  {| role := user; parts := [ {| text := question |} ] |}.
Definition modelTurn (answer : string) : Turn :=
  {| role := model; parts := [ {| text := answer |} ] |}.

(** ** Relevance filter and context assembly (the /ask handler, l.160-179) *)

Definition similarityThreshold : Q := 1 # 2.

Definition separator : string := LF +:+ LF +:+ "---" +:+ LF +:+ LF.

Definition refusal : string := "I couldn't find the answer in the document.".

(** [results.filter(([_, score]) => score >= similarityThreshold)] *)
Definition relevantResults (results : list RetrievalResult)
  : list RetrievalResult :=
  List.filter (fun r => Qle_bool similarityThreshold (snd r)) results.

(** The value of [context] once the [if (relevantResults.length > 0)]
    statement is over. *)
Definition context (results : list RetrievalResult) : string :=
  let relevant := relevantResults results in
  if (0 <? List.length relevant)%nat then
    join separator
      (List.filter (fun t => (0 <? String.length (trim t))%nat)
         (List.map (fun r => pageContent (fst r)) relevant))
  else "".

(** ** Effects: the session store, the collaborators, exceptions *)

Record Error := { message : string }.

Inductive Completion (A : Type) : Type :=
| Normal (a : A)
| Throw (e : Error).
Arguments Normal {A} a.
Arguments Throw {A} e.

(** The calls a handler makes to the external services, with their
    arguments, in the order they are made. *)
Inductive Call :=
| CallPdfLoad (pdfPath : string)
| CallSplitDocuments (rawDocs : list Document)
| CallFromDocuments (chunkedDocs : list Document) (ns : string)
| CallDescribeIndexStats
| CallRewrite (contents : list Turn)
| CallEmbedQuery (query : string)
| CallFromExistingIndex (ns : string)
| CallSimilaritySearch (ns : string) (queryVector : Vector) (k : nat)
| CallGenerate (prompt : string).

(** The behaviour of the external services during one request.
    - [dateNow]: the reading of [Date.now()].
    - [fromDocuments] stands for the statements of l.79-91 (embedding
      client, index handle, [PineconeStore.fromDocuments]); nothing that is
      modelled changes between them.
    - [rewriteModel] stands for l.212-220 and [answerModel] for l.233-243:
      [getGenerativeModel], [generateContent], [result.response] and
      [response.text()], which sit in one [try] block each.
    - [embedQuery] stands for l.138-143, [fromExistingIndex] for l.147-150. *)
Record Collaborators := {
  dateNow : N;
  pdfLoad : string -> Completion (list Document);
  splitDocuments : list Document -> Completion (list Document);
  fromDocuments : list Document -> string -> Completion unit;
  describeIndexStats : Completion string;
  rewriteModel : list Turn -> Completion string;
  embedQuery : string -> Completion Vector;
  fromExistingIndex : string -> Completion unit;
  similaritySearchVectorWithScore :
    string -> Vector -> nat -> Completion (list RetrievalResult);
  answerModel : string -> Completion string;
}.

Record World := {
  sessionStore : gmap string Session;
  calls : list Call;
}.

Definition M (A : Type) : Type := World -> Completion A * World.

#[global] Instance M_ret : MRet M := fun A a w => (Normal a, w).

#[global] Instance M_bind : MBind M := fun A B f m w =>
  match m w with
  | (Normal a, w') => f a w'
  | (Throw e, w') => (Throw e, w')
  end.

(** [try { body } catch (error) { handler }] *)
Definition try_catch {A} (body : M A) (handler : Error -> M A) : M A :=
  fun w =>
    match body w with
    | (Normal a, w') => (Normal a, w')
    | (Throw e, w') => handler e w'
    end.

(** [await] of a collaborator call: the call is logged, its completion is
    the outcome. *)
Definition call {A} (c : Call) (outcome : Completion A) : M A :=
  fun w =>
    (outcome, {| sessionStore := sessionStore w; calls := (calls w ++ [c])%list |}).

(** [sessionStore.get(sessionId)] *)
Definition sessionStore_get (sessionId : string) : M (option Session) :=
  fun w => (Normal (sessionStore w !! sessionId), w).

(** [sessionStore.set(sessionId, session)] *)
Definition sessionStore_set (sessionId : string) (session : Session) : M unit :=
  fun w =>
    (Normal tt,
     {| sessionStore := <[sessionId := session]> (sessionStore w);
        calls := calls w |}).

Definition push (t : Turn) (s : Session) : Session :=
  {| namespace := namespace s; history := (history s ++ [t])%list |}.

(** [history.push(t)] in the /ask handler.  [history] is the array object
    held by the session that [sessionStore.get(sessionId)] returned, so the
    push changes the history the store holds under [sessionId]; the handler
    never replaces that session object. *)
Definition history_push (sessionId : string) (t : Turn) : M unit :=
  fun w =>
    (Normal tt,
     {| sessionStore := alter (push t) sessionId (sessionStore w);
        calls := calls w |}).

(** ** HTTP messages *)

Inductive Body :=
| ErrorBody (error : string)
| AnswerBody (answer : string)
| UploadBody (msg : string) (sessionId : string).

Record Response := { status : nat; body : Body }.

(** [res.json(b)] *)
Definition json (b : Body) : Response := {| status := 200; body := b |}.

(** [req.file]: the path multer stored the upload under, if any. *)
Record UploadRequest := { file : option string }.

(** [req.body] of /ask; [None] is an absent field. *)
Record AskRequest := { question : option string; sessionId : option string }.

(** ** The helpers *)

Section Handlers.

Variable E : Collaborators.

(** [transformQuery], l.202-225.  [tempHistory] is a copy: the session's
    history is not touched. *)
Definition transformQuery (question : string) (history : list Turn)
  : M string :=
  try_catch
    (if (List.length history =? 0)%nat then mret question
     else
       let tempHistory := (history ++ [userTurn question])%list in
       call (CallRewrite tempHistory) (rewriteModel E tempHistory))
    (fun error => mret question).

Definition prompt (question context : string) : string :=
  "Context: " +:+ context +:+ LF +:+ LF +:+ "Question: " +:+ question
  +:+ LF +:+ LF
  +:+ "Answer the question using ONLY the context above. If the answer cannot be found in the context, say "
  +:+ DQUOTE +:+ "I couldn't find the answer in the document." +:+ DQUOTE.

(** The phrases of the [if] of l.246-247. *)
Definition inabilityPhrases : list string := ["couldn't find"; "don't know"].

(** [generateAnswer], l.228-256 *)
Definition generateAnswer (question context : string) : M string :=
  try_catch
    (answer ← call (CallGenerate (prompt question context))
                   (answerModel E (prompt question context));
     if includes (toLowerCase answer) "couldn't find"
        || includes (toLowerCase answer) "don't know"
     then mret refusal
     else mret answer)
    (fun error => mret refusal).

(** ** POST /upload, l.54-113 *)
Definition upload (req : UploadRequest) : M Response :=
  try_catch
    (match file req with
     | None =>
         mret {| status := 400; body := ErrorBody "No file uploaded" |}
     | Some pdfPath =>
         let sessionId := pretty (dateNow E) in
         let namespace := "pdf-" +:+ sessionId in
         rawDocs ← call (CallPdfLoad pdfPath) (pdfLoad E pdfPath);
         chunkedDocs ← call (CallSplitDocuments rawDocs)
                            (splitDocuments E rawDocs);
         call (CallFromDocuments chunkedDocs namespace)
              (fromDocuments E chunkedDocs namespace);;
         sessionStore_set sessionId
           {| namespace := namespace; history := [] |};;
         stats ← call CallDescribeIndexStats (describeIndexStats E);
         mret (json (UploadBody "PDF processed successfully" sessionId))
     end)
    (fun error =>
       mret {| status := 500;
               body := ErrorBody ("Failed to process PDF: "
                                  +:+ message error) |}).

(** ** POST /ask, l.116-199 *)
Definition ask (req : AskRequest) : M Response :=
  try_catch
    (match question req, sessionId req with
     | Some question, Some sessionId =>
         if negb (truthy question) || negb (truthy sessionId) then
           mret {| status := 400;
                   body := ErrorBody "Missing question or session ID" |}
         else
           session ← sessionStore_get sessionId;
           match session with
           | None =>
               mret {| status := 400;
                       body := ErrorBody "Invalid session ID" |}
           | Some session =>
               let namespace := namespace session in
               let history := history session in
               transformedQuery ← transformQuery question history;
               queryVector ← call (CallEmbedQuery transformedQuery)
                                  (embedQuery E transformedQuery);
               call (CallFromExistingIndex namespace)
                    (fromExistingIndex E namespace);;
               results ← call (CallSimilaritySearch namespace queryVector 10)
                              (similaritySearchVectorWithScore
                                 E namespace queryVector 10%nat);
               let context := context results in
               answer ← (if truthy context
                         then generateAnswer question context
                         else mret refusal);
               history_push sessionId (userTurn question);;
               history_push sessionId (modelTurn answer);;
               mret (json (AnswerBody answer))
           end
     | _, _ =>
         mret {| status := 400;
                 body := ErrorBody "Missing question or session ID" |}
     end)
    (fun error =>
       mret {| status := 500;
               body := ErrorBody ("Failed to process question: "
                                  +:+ message error) |}).

End Handlers.

(** ** The server: requests handled one after the other *)

Inductive Request :=
| Upload (req : UploadRequest)
| Ask (req : AskRequest).

Definition handle (E : Collaborators) (req : Request) : M Response :=
  match req with
  | Upload r => upload E r
  | Ask r => ask E r
  end.

(** One request, from the state before it to the response and the state
    after it.  Both handlers catch everything, so the last case (Express's
    own error reply) is never taken; see [handle_never_throws]. *)
Definition serve (E : Collaborators) (req : Request) (w : World)
  : Response * World :=
  match handle E req w with
  | (Normal res, w') => (res, w')
  | (Throw e, w') => ({| status := 500; body := ErrorBody (message e) |}, w')
  end.

(** A run: each request comes with the behaviour of the collaborators
    while it is handled.  The requests are handled one after the other: no
    request begins before the previous one has ended (module [Overlap]
    below is about /ask requests that overlap). *)
Fixpoint run (reqs : list (Collaborators * Request)) (w : World)
  : list Response * World :=
  match reqs with
  | [] => ([], w)
  | (E, req) :: reqs' =>
      let '(res, w') := serve E req w in
      let '(ress, w'') := run reqs' w' in
      (res :: ress, w'')
  end.

(** ** The relevance filter as the specification words it

    Section 4.4: drop every result with similarity strictly below the
    threshold; concatenate the remaining chunk texts in their retrieved
    order, skipping any chunk whose trimmed text is empty, joined with the
    separator.  Section 4.5: a case-insensitive substring match on a fixed
    phrase set.  The definitions of this module follow that wording and
    are compared with [relevantResults], [context] and the test of
    [generateAnswer] below. *)

Module Spec.

#[global] Instance Qlt_decision (x y : Q) : Decision (x < y)%Q.
Proof. unfold Qlt. apply _. Defined.

Definition strictlyBelow (r : RetrievalResult) : Prop :=
  (snd r < similarityThreshold)%Q.

Definition survivors (results : list RetrievalResult)
  : list RetrievalResult :=
  filter (fun r => ¬ strictlyBelow r) results.

Definition assembled (results : list RetrievalResult) : string :=
  join separator
    (filter (fun t => trim t ≠ "")
       ((fun r => pageContent (fst r)) <$> survivors results)).

(** Results ordered by descending similarity score. *)
Definition descending (results : list RetrievalResult) : Prop :=
  StronglySorted (fun a b => (snd b <= snd a)%Q) results.

(** [text] has a substring that is [phrase] up to letter case. *)
Definition containsIgnoringCase (text phrase : string) : Prop :=
  ∃ pre mid post,
    text = pre +:+ mid +:+ post ∧ toLowerCase mid = toLowerCase phrase.

Definition expressesInability (text : string) : Prop :=
  ∃ phrase, phrase ∈ inabilityPhrases ∧ containsIgnoringCase text phrase.

End Spec.

(** ** Observations on a request *)

(** The collaborator calls made between two states. *)
Definition callsDuring (w w' : World) : list Call :=
  drop (List.length (calls w)) (calls w').

Definition isGenerate (c : Call) : bool :=
  match c with CallGenerate _ => true | _ => false end.

Definition isRewrite (c : Call) : bool :=
  match c with CallRewrite _ => true | _ => false end.

(** The request carries a question and a session id, and the session is
    registered: the two checks of l.119 and l.127 pass. *)
Definition passesValidation
  (req : AskRequest) (w : World) (q sid : string) (s : Session) : Prop :=
  question req = Some q ∧ sessionId req = Some sid
  ∧ truthy q = true ∧ truthy sid = true
  ∧ sessionStore w !! sid = Some s.

(** The retrieval stage of the request (rewriting, embedding, opening the
    index, similarity search) completes and returns [results]. *)
Definition retrieves (E : Collaborators) (q : string) (s : Session)
  (w : World) (results : list RetrievalResult) : Prop :=
  ∃ tq w1 v,
    transformQuery E q (history s) w = (Normal tq, w1)
    ∧ embedQuery E tq = Normal v
    ∧ fromExistingIndex E (namespace s) = Normal tt
    ∧ similaritySearchVectorWithScore E (namespace s) v 10%nat
      = Normal results.

(** One of the three collaborator calls of the retrieval stage that are
    not inside a [try] of their own throws [e]. *)
Definition retrievalThrows (E : Collaborators) (q : string) (s : Session)
  (w : World) (e : Error) : Prop :=
  ∃ tq w1,
    transformQuery E q (history s) w = (Normal tq, w1)
    ∧ (embedQuery E tq = Throw e
       ∨ ∃ v, embedQuery E tq = Normal v
              ∧ (fromExistingIndex E (namespace s) = Throw e
                 ∨ (fromExistingIndex E (namespace s) = Normal tt
                    ∧ similaritySearchVectorWithScore
                        E (namespace s) v 10%nat = Throw e))).

Definition failed (e : Error) : Response :=
  {| status := 500;
     body := ErrorBody ("Failed to process question: " +:+ message e) |}.



(** The turns of a list of answered questions: a user turn with the
    question, then a model turn with the answer, for each in order. *)
Fixpoint turnsOf (qa : list (string * string)) : list Turn :=
  match qa with
  | [] => []
  | (q, a) :: qa' => userTurn q :: modelTurn a :: turnsOf qa'
  end.


Definition uploadFailed (e : Error) : Response :=
  {| status := 500;
     body := ErrorBody ("Failed to process PDF: " +:+ message e) |}.

(** The same collaborators with another rewriting model. *)
Definition withRewriter (E : Collaborators)
  (f : list Turn -> Completion string) : Collaborators :=
  {| dateNow := dateNow E;
     pdfLoad := pdfLoad E;
     splitDocuments := splitDocuments E;
     fromDocuments := fromDocuments E;
     describeIndexStats := describeIndexStats E;
     rewriteModel := f;
     embedQuery := embedQuery E;
     fromExistingIndex := fromExistingIndex E;
     similaritySearchVectorWithScore := similaritySearchVectorWithScore E;
     answerModel := answerModel E |}.


(** ** Symbolic evaluation of the helpers and of the /ask handler *)

Definition logged (l : list Call) (w : World) : World :=
  {| sessionStore := sessionStore w; calls := (calls w ++ l)%list |}.

(** What [transformQuery] returns and which call it makes. *)
Definition transformedQuery (E : Collaborators) (q : string)
  (h : list Turn) : string :=
  match h with
  | [] => q
  | _ => match rewriteModel E (h ++ [userTurn q])%list with
         | Normal t => t
         | Throw _ => q
         end
  end.

Definition rewriteCalls (q : string) (h : list Turn) : list Call :=
  match h with
  | [] => []
  | _ => [CallRewrite (h ++ [userTurn q])%list]
  end.

(** What [generateAnswer] returns. *)
Definition generatedAnswer (E : Collaborators) (q c : string) : string :=
  match answerModel E (prompt q c) with
  | Normal a =>
      if includes (toLowerCase a) "couldn't find"
         || includes (toLowerCase a) "don't know"
      then refusal else a
  | Throw _ => refusal
  end.

Definition answerOf (E : Collaborators) (q : string)
  (results : list RetrievalResult) : string :=
  if truthy (context results)
  then generatedAnswer E q (context results)
  else refusal.

Definition generateCalls (q : string) (results : list RetrievalResult)
  : list Call :=
  if truthy (context results)
  then [CallGenerate (prompt q (context results))]
  else [].

Definition appended (sid q a : string) (st : gmap string Session)
  : gmap string Session :=
  alter (push (modelTurn a)) sid (alter (push (userTurn q)) sid st).

(** Response, session store and calls of a validated /ask request, by
    cases on the completions of the collaborators. *)
Definition askOutcome (E : Collaborators) (q sid : string) (s : Session)
  (st : gmap string Session) : Response * gmap string Session * list Call :=
  let tq := transformedQuery E q (history s) in
  let ns := namespace s in
  let pre := (rewriteCalls q (history s) ++ [CallEmbedQuery tq])%list in
  match embedQuery E tq with
  | Throw e => (failed e, st, pre)
  | Normal v =>
      match fromExistingIndex E ns with
      | Throw e => (failed e, st, (pre ++ [CallFromExistingIndex ns])%list)
      | Normal _ =>
          match similaritySearchVectorWithScore E ns v 10%nat with
          | Throw e =>
              (failed e, st,
               (pre ++ [CallFromExistingIndex ns;
                        CallSimilaritySearch ns v 10])%list)
          | Normal results =>
              let a := answerOf E q results in
              (json (AnswerBody a), appended sid q a st,
               (pre ++ [CallFromExistingIndex ns;
                        CallSimilaritySearch ns v 10]
                    ++ generateCalls q results)%list)
          end
      end
  end.

(** ** Properties of sessions, histories and calls *)

(** The namespace is the one /upload derives from the session id (l.65). *)
Definition followsId (sid : string) (s : Session) : Prop :=
  namespace s = "pdf-" +:+ sid.

(** The roles of a history alternate, starting with [user]. *)
Definition rolesAlternate (h : list Turn) : Prop :=
  ∀ i t, h !! i = Some t → role t = if Nat.even i then user else model.

(** The vector-store calls among [c] are made on namespace [ns] and ask
    for ten neighbours; [c] is no call of the ingestion stage. *)
Definition withinNamespace (ns : string) (c : Call) : Prop :=
  match c with
  | CallFromExistingIndex n => n = ns
  | CallSimilaritySearch n _ k => n = ns ∧ k = 10%nat
  | CallPdfLoad _ | CallSplitDocuments _ | CallFromDocuments _ _
  | CallDescribeIndexStats => False
  | CallRewrite _ | CallEmbedQuery _ | CallGenerate _ => True
  end.

(** A retrieved result that reaches the threshold and whose text is not
    blank. *)
Definition usable (r : RetrievalResult) : Prop :=
  ¬ (snd r < similarityThreshold)%Q ∧ trim (pageContent (fst r)) ≠ "".

(** The same collaborators at another reading of the clock. *)
Definition atTime (now : N) (E : Collaborators) : Collaborators :=
  {| dateNow := now;
     pdfLoad := pdfLoad E;
     splitDocuments := splitDocuments E;
     fromDocuments := fromDocuments E;
     describeIndexStats := describeIndexStats E;
     rewriteModel := rewriteModel E;
     embedQuery := embedQuery E;
     fromExistingIndex := fromExistingIndex E;
     similaritySearchVectorWithScore := similaritySearchVectorWithScore E;
     answerModel := answerModel E |}.

Definition registered (sid : string) : Session :=
  {| namespace := "pdf-" +:+ sid; history := [] |}.

(** ** Concrete collaborators, sessions and requests *)

Module Sample.

Definition doc (t : string) : Document := {| pageContent := t; metadata := "" |}.

(** Four results in descending score order: two reach the threshold (one of
    them exactly), one is blank, one is just below. *)
Definition mixed : list RetrievalResult :=
  [(doc "alpha", 9 # 10); (doc "  ", 7 # 10); (doc "beta", 1 # 2);
   (doc "gamma", 49 # 100)].

Definition low : list RetrievalResult :=
  [(doc "alpha", 49 # 100); (doc "beta", 1 # 10)].

Definition collaborators
  (stats rewritten : Completion string) (embedded : Completion Vector)
  (results : Completion (list RetrievalResult))
  (generated : Completion string) : Collaborators :=
  {| dateNow := 1700000000000;
     pdfLoad := fun _ => Normal [doc "page one"];
     splitDocuments := fun docs => Normal docs;
     fromDocuments := fun _ _ => Normal tt;
     describeIndexStats := stats;
     rewriteModel := fun _ => rewritten;
     embedQuery := fun _ => embedded;
     fromExistingIndex := fun _ => Normal tt;
     similaritySearchVectorWithScore := fun _ _ _ => results;
     answerModel := fun _ => generated |}.

Definition outage (m : string) {A} : Completion A := Throw {| message := m |}.

Definition healthy : Collaborators :=
  collaborators (Normal "{}") (Normal "what is alpha?") (Normal [1 # 1])
    (Normal mixed) (Normal "Alpha is the first letter.").

Definition unsure : Collaborators :=
  collaborators (Normal "{}") (Normal "what is alpha?") (Normal [1 # 1])
    (Normal mixed) (Normal "Sorry, I DON'T KNOW that.").

Definition lowScores : Collaborators :=
  collaborators (Normal "{}") (Normal "what is alpha?") (Normal [1 # 1])
    (Normal low) (Normal "Alpha is the first letter.").

Definition statsDown : Collaborators :=
  collaborators (outage "stats unavailable") (Normal "what is alpha?")
    (Normal [1 # 1]) (Normal mixed) (Normal "Alpha is the first letter.").

Definition rewriterDown : Collaborators :=
  collaborators (Normal "{}") (outage "quota exceeded") (Normal [1 # 1])
    (Normal mixed) (Normal "Alpha is the first letter.").

Definition embeddingDown : Collaborators :=
  collaborators (Normal "{}") (Normal "what is alpha?")
    (outage "quota exceeded") (Normal mixed)
    (Normal "Alpha is the first letter.").

Definition generatorDown : Collaborators :=
  collaborators (Normal "{}") (Normal "what is alpha?") (Normal [1 # 1])
    (Normal mixed) (outage "quota exceeded").

Definition sid : string := "1700000000000".

Definition freshSession : Session :=
  {| namespace := "pdf-1700000000000"; history := [] |}.

Definition talkedSession : Session :=
  {| namespace := "pdf-1700000000000";
     history := [userTurn "what is it?"; modelTurn "It is alpha."] |}.

Definition boot : World := {| sessionStore := ∅; calls := [] |}.

Definition fresh : World :=
  {| sessionStore := {[ sid := freshSession ]}; calls := [] |}.

Definition talked : World :=
  {| sessionStore := {[ sid := talkedSession ]}; calls := [] |}.

Definition whatIsAlpha : AskRequest :=
  {| question := Some "alpha?"; sessionId := Some sid |}.

Definition pdf : UploadRequest := {| file := Some "uploads/pdf-1.pdf" |}.

End Sample.

(** ** More collaborators for the examples *)

Module Scenario.

(** The splitter throws; everything else is as in [Sample.healthy]. *)
Definition splitterDown : Collaborators :=
  {| dateNow := dateNow Sample.healthy;
     pdfLoad := pdfLoad Sample.healthy;
     splitDocuments := fun _ => Throw {| message := "no text" |};
     fromDocuments := fromDocuments Sample.healthy;
     describeIndexStats := describeIndexStats Sample.healthy;
     rewriteModel := rewriteModel Sample.healthy;
     embedQuery := embedQuery Sample.healthy;
     fromExistingIndex := fromExistingIndex Sample.healthy;
     similaritySearchVectorWithScore :=
       similaritySearchVectorWithScore Sample.healthy;
     answerModel := answerModel Sample.healthy |}.

(** One millisecond after [Sample.healthy]. *)
Definition later : Collaborators := atTime 1700000000001 Sample.healthy.

End Scenario.

(** The rewriting model and the embedding call both throw. *)
Definition rewriterAndEmbeddingDown : Collaborators :=
  Sample.collaborators (Normal "{}") (Sample.outage "quota exceeded")
    (Sample.outage "embedding unavailable") (Normal Sample.mixed)
    (Normal "Alpha is the first letter.").

(** ** Overlapping /ask requests

    The /ask handler reads the store in its first synchronous stretch only
    (l.117-134: the two checks, [sessionStore.get], and, inside
    [transformQuery], the length test and the copy of [history], all
    before the first [await]).  It then awaits the collaborators, which do
    not depend on the store, and in its last synchronous stretch pushes
    the two turns onto the array it holds and replies (l.189-194, or the
    [catch] of l.195-198).  Other requests may run between the two
    stretches.  [Begin] is the first stretch of a new request, [End k] the
    last stretch of the [k]-th request begun.  Only /ask requests are
    scheduled here, so the session object under an id is never replaced
    and the array a request holds is the one in the store. *)

Module Overlap.

(** A request between its two stretches, with the reply its collaborators
    lead to. *)
Record Pending := { asked : AskRequest; reply : Response }.

Record State := {
  store : gmap string Session;
  inflight : list (option Pending);
  completed : list Pending;
}.

Inductive Action :=
| Begin (E : Collaborators) (req : AskRequest)
| End (k : nat).

(** The reply is fixed by the store the request reads when it begins. *)
Definition begin (E : Collaborators) (req : AskRequest)
  (st : gmap string Session) : Pending :=
  {| asked := req;
     reply := fst (serve E (Ask req) {| sessionStore := st; calls := [] |}) |}.

(** The question and the answer of a request that is answered. *)
Definition answer (p : Pending) : option (string * string) :=
  match question (asked p), body (reply p) with
  | Some q, AnswerBody a => Some (q, a)
  | _, _ => None
  end.

(** The turns l.190-191 push: none unless the reply carries an answer. *)
Definition pushes (p : Pending) : list Turn :=
  match answer p with
  | Some (q, a) => [userTurn q; modelTurn a]
  | None => []
  end.

Definition target (p : Pending) : string := default "" (sessionId (asked p)).

Definition extend (turns : list Turn) (s : Session) : Session :=
  {| namespace := namespace s; history := (history s ++ turns)%list |}.

Definition step (f : State) (a : Action) : State :=
  match a with
  | Begin E req =>
      {| store := store f;
         inflight := (inflight f ++ [Some (begin E req (store f))])%list;
         completed := completed f |}
  | End k =>
      match inflight f !! k with
      | Some (Some p) =>
          {| store := alter (extend (pushes p)) (target p) (store f);
             inflight := <[k := None]> (inflight f);
             completed := (completed f ++ [p])%list |}
      | _ => f
      end
  end.

Definition interleave (actions : list Action) (f : State) : State :=
  foldl step f actions.

Definition start (st : gmap string Session) : State :=
  {| store := st; inflight := []; completed := [] |}.

(** The questions answered on session [sid] with their answers, in the
    order the requests completed. *)
Definition answeredOn (sid : string) (done : list Pending)
  : list (string * string) :=
  omap answer (filter (fun p => target p = sid) done).

Definition betaQuestion : AskRequest :=
  {| question := Some "beta?"; sessionId := Some Sample.sid |}.

End Overlap.

(** * Strings: facts used below *)

Section StringFacts.

Lemma append_cons (c : ascii) (a b : string) :
  String c a +:+ b = String c (a +:+ b).
Proof. reflexivity. Qed.

Lemma prefix_spec (p s : string) :
  String.prefix p s = true ↔ ∃ post, s = p +:+ post.
Proof.
  revert s. induction p as [|a p IH]; intros s.
  - split; [intros _; by exists s | intros _; by destruct s].
  - destruct s as [|b s]; simpl.
    + split; [done | intros [post H]; discriminate].
    + destruct (ascii_dec a b) as [->|Hne].
      * rewrite IH. split; intros [post H]; exists post.
        -- by rewrite append_cons, H.
        -- rewrite append_cons in H. congruence.
      * split; [done | intros [post H]].
        rewrite append_cons in H. congruence.
Qed.

Lemma includes_spec (s p : string) :
  includes s p = true ↔ ∃ pre post, s = pre +:+ p +:+ post.
Proof.
  induction s as [|c s IH].
  - cbn [includes]. rewrite orb_false_r, prefix_spec. split.
    + intros [post H]. by exists "", post.
    + intros [pre [post H]]. destruct pre; [by exists post | discriminate].
  - cbn [includes]. rewrite orb_true_iff, prefix_spec, IH. split.
    + intros [[post H] | [pre [post H]]].
      * by exists "", post.
      * exists (String c pre), post. by rewrite append_cons, H.
    + intros [pre [post H]]. destruct pre as [|c' pre].
      * left. by exists post.
      * right. exists pre, post. rewrite append_cons in H. congruence.
Qed.

Lemma toLowerCase_app (a b : string) :
  toLowerCase (a +:+ b) = toLowerCase a +:+ toLowerCase b.
Proof.
  induction a as [|x a IH]; [done |].
  rewrite append_cons. cbn [toLowerCase]. by rewrite append_cons, IH.
Qed.

Lemma toLowerCase_split (s a b : string) :
  toLowerCase s = a +:+ b →
  ∃ s1 s2, s = s1 +:+ s2 ∧ toLowerCase s1 = a ∧ toLowerCase s2 = b.
Proof.
  revert s. induction a as [|x a IH]; intros s H.
  - by exists "", s.
  - destruct s as [|c s]; [discriminate |].
    rewrite append_cons in H. cbn [toLowerCase] in H.
    injection H as Hx H.
    destruct (IH s H) as (s1 & s2 & -> & H1 & H2).
    exists (String c s1), s2. cbn [toLowerCase]. by rewrite Hx, H1.
Qed.

(** [includes] on the lower-cased text is containment up to case, for a
    phrase that is in lower case already. *)
Lemma includes_toLowerCase (text phrase : string) :
  toLowerCase phrase = phrase →
  includes (toLowerCase text) phrase = true
  ↔ Spec.containsIgnoringCase text phrase.
Proof.
  intros Hlow. rewrite includes_spec. unfold Spec.containsIgnoringCase.
  rewrite Hlow. split.
  - intros (pre & post & H).
    destruct (toLowerCase_split _ _ _ H) as (s1 & s23 & -> & H1 & H23).
    destruct (toLowerCase_split _ _ _ H23) as (s2 & s3 & -> & H2 & H3).
    by exists s1, s2, s3.
  - intros (pre & mid & post & -> & H).
    exists (toLowerCase pre), (toLowerCase post).
    by rewrite !toLowerCase_app, H.
Qed.

Lemma trim_nonempty (t : string) :
  (0 <? String.length (trim t))%nat = true ↔ trim t ≠ "".
Proof.
  destruct (trim t); simpl; [split; [discriminate | done] | done].
Qed.

End StringFacts.

(** * The relevance filter *)

Section FilterFacts.

Lemma filter_decide {A} (f : A → bool) (P : A → Prop)
  `{!∀ x, Decision (P x)} (l : list A) :
  (∀ x, f x = true ↔ P x) → List.filter f l = filter P l.
Proof.
  intros Hf. induction l as [|x l IH]; [done |].
  rewrite filter_cons. simpl. rewrite IH.
  destruct (f x) eqn:Hx, (decide (P x)) as [HP|HP]; try done.
  - apply Hf in Hx. done.
  - apply Hf in HP. congruence.
Qed.

Lemma threshold_test (r : RetrievalResult) :
  Qle_bool similarityThreshold (snd r) = true ↔ ¬ Spec.strictlyBelow r.
Proof.
  rewrite Qle_bool_iff. unfold Spec.strictlyBelow. split.
  - apply Qle_not_lt.
  - apply Qnot_lt_le.
Qed.

Lemma relevantResults_survivors (results : list RetrievalResult) :
  relevantResults results = Spec.survivors results.
Proof. apply filter_decide, threshold_test. Qed.

Lemma descending_filter (P : RetrievalResult → Prop)
  `{!∀ r, Decision (P r)} (results : list RetrievalResult) :
  Spec.descending results → Spec.descending (filter P results).
Proof.
  unfold Spec.descending. induction 1 as [|r l Hl IH Hr]; [constructor |].
  rewrite filter_cons. destruct (decide (P r)); [| done].
  constructor; [done |].
  rewrite Forall_forall in Hr |- *. intros x Hx.
  apply list_elem_of_filter in Hx as [_ Hx]. by apply Hr.
Qed.

Lemma context_assembled (results : list RetrievalResult) :
  context results = Spec.assembled results.
Proof.
  unfold context, Spec.assembled.
  rewrite <- relevantResults_survivors.
  rewrite (filter_decide
             (fun t => (0 <? String.length (trim t))%nat)
             (fun t => trim t ≠ "") _ trim_nonempty).
  destruct (relevantResults results); reflexivity.
Qed.

(** No survivor, or only survivors with blank text: the context is the
    empty string. *)
Lemma context_empty (results : list RetrievalResult) :
  Forall Spec.strictlyBelow results
  ∨ Forall (fun r => trim (pageContent (fst r)) = "")
      (relevantResults results) →
  context results = "".
Proof.
  intros H. rewrite context_assembled. unfold Spec.assembled.
  rewrite <- relevantResults_survivors.
  assert (filter (fun t => trim t ≠ "")
            ((fun r => pageContent (fst r)) <$> relevantResults results)
          = []) as ->; [| done].
  destruct H as [H | H].
  - rewrite relevantResults_survivors. unfold Spec.survivors.
    induction H as [|r l Hr Hl IH]; [done |].
    rewrite filter_cons. destruct (decide (¬ Spec.strictlyBelow r)); done.
  - induction H as [|r l Hr Hl IH]; [done |].
    rewrite fmap_cons, filter_cons.
    destruct (decide (trim (pageContent (fst r)) ≠ "")); done.
Qed.

End FilterFacts.

(** C7: the relevance filter keeps, in retrieved order, exactly the results
    whose score is not strictly below 0.5 (a score of exactly 0.5 is kept),
    so a score-descending retrieval stays score-descending; the context is
    the kept chunk texts, without those whose trimmed text is empty, joined
    with the separator LF LF "---" LF LF. *)
Theorem relevance_filter_and_context (results : list RetrievalResult) :
  relevantResults results = Spec.survivors results
  ∧ (∀ r, r ∈ results →
          (r ∉ relevantResults results ↔ (snd r < 1 # 2)%Q))
  ∧ (∀ r, r ∈ results → (snd r == 1 # 2)%Q → r ∈ relevantResults results)
  ∧ relevantResults results `sublist_of` results
  ∧ (Spec.descending results → Spec.descending (relevantResults results))
  ∧ context results = Spec.assembled results
  ∧ separator
    = String "010" (String "010" ("---" +:+ String "010" (String "010" ""))).
Proof.
  pose proof (relevantResults_survivors results) as Heq.
  split; [done |]. rewrite Heq. unfold Spec.survivors.
  split; [| split; [| split; [| split; [| split]]]].
  - intros r Hr. rewrite list_elem_of_filter. unfold Spec.strictlyBelow.
    change similarityThreshold with (1 # 2). split.
    + intros Hn. destruct (decide (snd r < 1 # 2)%Q); [done |].
      exfalso. by apply Hn.
    + intros Hlt [Hn _]. done.
  - intros r Hr Hq. rewrite list_elem_of_filter. split; [| done].
    unfold Spec.strictlyBelow. change similarityThreshold with (1 # 2).
    rewrite Hq. apply Qlt_irrefl.
  - apply sublist_filter.
  - apply descending_filter.
  - apply context_assembled.
  - reflexivity.
Qed.

(** The scenario of section 8 in small: of four results in descending
    order, those scoring 9/10, 7/10 and 1/2 survive, the blank one is
    skipped, and the context is the two remaining texts around the
    separator. *)
Lemma relevance_filter_and_context_witness :
  Spec.descending Sample.mixed
  ∧ Spec.descending (relevantResults Sample.mixed)
  ∧ relevantResults Sample.mixed
    = [(Sample.doc "alpha", 9 # 10); (Sample.doc "  ", 7 # 10);
       (Sample.doc "beta", 1 # 2)]
  ∧ context Sample.mixed = "alpha" +:+ separator +:+ "beta".
Proof.
  assert (Spec.descending Sample.mixed) as Hd.
  { unfold Spec.descending, Sample.mixed.
    repeat (constructor; try (unfold Qle; simpl; lia)). }
  destruct (relevance_filter_and_context Sample.mixed)
    as (_ & _ & _ & _ & Hsorted & _ & _).
  split; [exact Hd |]. split; [exact (Hsorted Hd) |].
  split; reflexivity.
Defined.

(** * Evaluation lemmas *)

Ltac unfold_M :=
  unfold try_catch, call, sessionStore_get, sessionStore_set, history_push,
    mbind, M_bind, mret, M_ret, logged in *.

Section Evaluation.

Variable E : Collaborators.

Lemma world_eta (w : World) :
  {| sessionStore := sessionStore w; calls := calls w |} = w.
Proof. by destruct w. Qed.

Lemma callsDuring_logged (l : list Call) (w : World) (st : gmap string Session) :
  callsDuring w {| sessionStore := st; calls := (calls w ++ l)%list |} = l.
Proof. unfold callsDuring. simpl. by rewrite drop_app_length. Qed.

Lemma transformQuery_eval (q : string) (h : list Turn) (w : World) :
  transformQuery E q h w
  = (Normal (transformedQuery E q h), logged (rewriteCalls q h) w).
Proof.
  unfold transformQuery. destruct h as [|t h].
  - simpl. unfold_M. by rewrite app_nil_r, world_eta.
  - unfold transformedQuery, rewriteCalls. unfold_M.
    change (List.length (t :: h) =? 0)%nat with false. cbn iota.
    by destruct (rewriteModel E ((t :: h) ++ [userTurn q])).
Qed.

Lemma generateAnswer_eval (q c : string) (w : World) :
  generateAnswer E q c w
  = (Normal (generatedAnswer E q c), logged [CallGenerate (prompt q c)] w).
Proof.
  unfold generateAnswer, generatedAnswer. unfold_M.
  destruct (answerModel E (prompt q c)) as [a|e]; [| done].
  by destruct (includes (toLowerCase a) "couldn't find"
               || includes (toLowerCase a) "don't know").
Qed.

Lemma ask_eval (req : AskRequest) (w : World) (q sid : string)
  (s : Session) :
  passesValidation req w q sid s →
  ask E req w
  = let '(res, st, l) := askOutcome E q sid s (sessionStore w) in
    (Normal res, {| sessionStore := st; calls := (calls w ++ l)%list |}).
Proof.
  intros (Hq & Hsid & Htq & Htsid & Hs).
  unfold ask, askOutcome. rewrite Hq, Hsid, Htq, Htsid. cbn [negb orb].
  unfold try_catch at 1. unfold mbind at 1, M_bind at 1.
  unfold sessionStore_get at 1. rewrite Hs.
  unfold mbind at 1, M_bind at 1. rewrite transformQuery_eval.
  unfold mbind at 1, M_bind at 1. unfold call at 1.
  destruct (embedQuery E (transformedQuery E q (history s))) as [v|e].
  2: { unfold logged. simpl. by rewrite app_assoc. }
  unfold mbind at 1, M_bind at 1. unfold call at 1.
  destruct (fromExistingIndex E (namespace s)) as [[]|e].
  2: { unfold logged, mret, M_ret. simpl. by rewrite <- !app_assoc. }
  unfold mbind at 1, M_bind at 1. unfold call at 1.
  destruct (similaritySearchVectorWithScore E (namespace s) v 10)
    as [results|e].
  2: { unfold logged, mret, M_ret. simpl. by rewrite <- !app_assoc. }
  unfold mbind at 1, M_bind at 1.
  unfold answerOf, generateCalls.
  destruct (truthy (context results)).
  - rewrite generateAnswer_eval. unfold_M. simpl.
    unfold appended. by rewrite <- !app_assoc.
  - unfold_M. simpl. unfold appended. by rewrite <- !app_assoc.
Qed.

(** A request that fails a validation check changes nothing. *)
Lemma ask_invalid (req : AskRequest) (w : World) :
  (∀ q sid s, ¬ passesValidation req w q sid s) →
  ∃ msg, ask E req w = (Normal {| status := 400; body := ErrorBody msg |}, w).
Proof.
  intros Hno. unfold ask. unfold_M.
  destruct (question req) as [q|] eqn:Hq; [| by eexists].
  destruct (sessionId req) as [sid|] eqn:Hsid; [| by eexists].
  destruct (truthy q) eqn:Htq; [| by eexists].
  destruct (truthy sid) eqn:Htsid; [| by eexists]. simpl.
  destruct (sessionStore w !! sid) as [s|] eqn:Hs; [| by eexists].
  exfalso. by apply (Hno q sid s).
Qed.

Lemma passesValidation_dec (req : AskRequest) (w : World) :
  (∃ q sid s, passesValidation req w q sid s)
  ∨ (∀ q sid s, ¬ passesValidation req w q sid s).
Proof.
  unfold passesValidation.
  destruct (question req) as [q|];
    [| right; intros ??? (?&?&?&?&?); congruence].
  destruct (sessionId req) as [sid|];
    [| right; intros ??? (?&?&?&?&?); congruence].
  destruct (truthy q) eqn:Htq;
    [| right; intros ??? (?&?&?&?&?); congruence].
  destruct (truthy sid) eqn:Htsid;
    [| right; intros ??? (?&?&?&?&?); congruence].
  destruct (sessionStore w !! sid) as [s|] eqn:Hs;
    [| right; intros ??? (?&?&?&?&?); congruence].
  left. by exists q, sid, s.
Qed.

Lemma handle_never_throws (req : Request) (w : World) :
  ∃ res w', handle E req w = (Normal res, w').
Proof.
  destruct req as [r | r]; simpl.
  - unfold upload. unfold_M.
    destruct (file r) as [pdfPath|]; [| by do 2 eexists].
    destruct (pdfLoad E pdfPath) as [rawDocs|e]; [| by do 2 eexists].
    destruct (splitDocuments E rawDocs) as [chunkedDocs|e];
      [| by do 2 eexists].
    destruct (fromDocuments E chunkedDocs _) as [[]|e]; [| by do 2 eexists].
    destruct (describeIndexStats E) as [stats|e]; by do 2 eexists.
  - destruct (passesValidation_dec r w) as [(q & sid & s & Hv) | Hno].
    + rewrite (ask_eval r w q sid s Hv).
      destruct (askOutcome E q sid s (sessionStore w)) as [[res st] l].
      by do 2 eexists.
    + destruct (ask_invalid r w Hno) as [msg ->]. by do 2 eexists.
Qed.

End Evaluation.

(** * The query rewriter *)

(** C5: with an empty history, [transformQuery] returns the question as it
    is and leaves the state, hence the log of collaborator calls, as it
    was: the rewriting model is not called. *)
Theorem transformQuery_empty_history
  (E : Collaborators) (question : string) (w : World) :
  transformQuery E question [] w = (Normal question, w)
  ∧ callsDuring w (snd (transformQuery E question [] w)) = [].
Proof.
  assert (transformQuery E question [] w = (Normal question, w)) as H
    by reflexivity.
  split; [exact H |]. rewrite H. unfold callsDuring. simpl.
  apply drop_all.
Qed.

(** * The answer generator *)

Lemma inability_test (text : string) :
  includes (toLowerCase text) "couldn't find"
  || includes (toLowerCase text) "don't know" = true
  ↔ Spec.expressesInability text.
Proof.
  rewrite orb_true_iff, !includes_toLowerCase by reflexivity.
  unfold Spec.expressesInability, inabilityPhrases. split.
  - intros [H | H]; eexists; (split; [| exact H]); set_solver.
  - intros (p & Hp & H).
    apply elem_of_cons in Hp as [-> | Hp]; [by left |].
    apply list_elem_of_singleton in Hp as ->. by right.
Qed.

(** C9: when the generation model returns [text], [generateAnswer] returns
    the canonical refusal string if [text] contains, up to letter case, one
    of the inability phrases, and [text] itself otherwise. *)
Theorem generateAnswer_normalizes
  (E : Collaborators) (question ctx text : string) (w : World) :
  answerModel E (prompt question ctx) = Normal text →
  (Spec.expressesInability text →
   fst (generateAnswer E question ctx w)
   = Normal "I couldn't find the answer in the document.")
  ∧ (¬ Spec.expressesInability text →
     fst (generateAnswer E question ctx w) = Normal text).
Proof.
  intros Htext. rewrite generateAnswer_eval. simpl.
  unfold generatedAnswer. rewrite Htext.
  pose proof (inability_test text) as Htest.
  destruct (includes (toLowerCase text) "couldn't find"
            || includes (toLowerCase text) "don't know").
  - split; [done |]. intros Hn. exfalso. by apply Hn, Htest.
  - split; [| done]. intros Hy. apply Htest in Hy. discriminate.
Qed.

Lemma generateAnswer_normalizes_witness :
  Spec.expressesInability "Sorry, I DON'T KNOW that."
  ∧ fst (generateAnswer Sample.unsure "alpha?" "alpha" Sample.boot)
    = Normal "I couldn't find the answer in the document."
  ∧ fst (generateAnswer Sample.healthy "alpha?" "alpha" Sample.boot)
    = Normal "Alpha is the first letter.".
Proof.
  assert (Spec.expressesInability "Sorry, I DON'T KNOW that.") as Hy.
  { apply inability_test. reflexivity. }
  assert (¬ Spec.expressesInability "Alpha is the first letter.") as Hn.
  { intros H. apply inability_test in H. discriminate. }
  split; [exact Hy |]. split.
  - apply (generateAnswer_normalizes Sample.unsure "alpha?" "alpha"
             "Sorry, I DON'T KNOW that." Sample.boot eq_refl), Hy.
  - apply (generateAnswer_normalizes Sample.healthy "alpha?" "alpha"
             "Alpha is the first letter." Sample.boot eq_refl), Hn.
Defined.

(** * The /ask handler *)

Lemma rewriteCalls_no_generate (q : string) (h : list Turn) :
  Forall (fun c => isGenerate c = false) (rewriteCalls q h).
Proof. destruct h; repeat constructor. Qed.

Lemma retrieves_inv (E : Collaborators) (q : string) (s : Session)
  (w : World) (results : list RetrievalResult) :
  retrieves E q s w results →
  ∃ v, embedQuery E (transformedQuery E q (history s)) = Normal v
       ∧ fromExistingIndex E (namespace s) = Normal tt
       ∧ similaritySearchVectorWithScore E (namespace s) v 10%nat
         = Normal results.
Proof.
  intros (tq & w1 & v & Ht & He & Hi & Hr).
  rewrite transformQuery_eval in Ht. injection Ht as <- _. by exists v.
Qed.

(** C1: on a validated /ask request whose retrieval returns results that
    all score strictly below 0.5, or whose surviving chunks all have a
    blank trimmed text, the response is 200 with the canonical refusal
    string as answer and no call to the generation model is made. *)
Theorem relevance_gate
  (E : Collaborators) (req : AskRequest) (w : World) (q sid : string)
  (s : Session) (results : list RetrievalResult) :
  passesValidation req w q sid s →
  retrieves E q s w results →
  Forall (fun r => (snd r < 1 # 2)%Q) results
  ∨ Forall (fun r => trim (pageContent (fst r)) = "")
      (relevantResults results) →
  ∃ w',
    ask E req w
    = (Normal {| status := 200;
                 body := AnswerBody
                           "I couldn't find the answer in the document." |},
       w')
    ∧ Forall (fun c => isGenerate c = false) (callsDuring w w').
Proof.
  intros Hv Hr Hlow. apply retrieves_inv in Hr as (v & He & Hi & Hr).
  rewrite (ask_eval E req w q sid s Hv). unfold askOutcome.
  rewrite He, Hi, Hr. unfold answerOf, generateCalls.
  rewrite (context_empty results Hlow). cbn [truthy].
  eexists. split; [reflexivity |]. rewrite callsDuring_logged.
  rewrite !Forall_app. split; [split |].
  - apply rewriteCalls_no_generate.
  - by repeat constructor.
  - by repeat constructor.
Qed.

Lemma relevance_gate_witness :
  ∃ w',
    ask Sample.lowScores Sample.whatIsAlpha Sample.fresh
    = (Normal {| status := 200;
                 body := AnswerBody
                           "I couldn't find the answer in the document." |},
       w')
    ∧ Forall (fun c => isGenerate c = false) (callsDuring Sample.fresh w').
Proof.
  apply (relevance_gate Sample.lowScores Sample.whatIsAlpha Sample.fresh
           "alpha?" Sample.sid Sample.freshSession Sample.low).
  - repeat split.
  - exists "alpha?", Sample.fresh, [1 # 1]. repeat split.
  - left. repeat constructor.
Defined.

(** C10: when a validated /ask request ends in a 500 response, the session
    store, and with it the history of the session, is what it was before
    the request: the two turns are pushed only once the answer exists. *)
Theorem failed_ask_leaves_history
  (E : Collaborators) (req : AskRequest) (w w' : World) (q sid : string)
  (s : Session) (res : Response) :
  passesValidation req w q sid s →
  ask E req w = (Normal res, w') →
  status res = 500%nat →
  sessionStore w' = sessionStore w
  ∧ history <$> sessionStore w' !! sid = Some (history s).
Proof.
  intros Hv Hask H500.
  assert (sessionStore w' = sessionStore w) as Hst.
  { rewrite (ask_eval E req w q sid s Hv) in Hask. unfold askOutcome in Hask.
    destruct (embedQuery E _) as [v|e]; [| by injection Hask as <- <-].
    destruct (fromExistingIndex E _) as [[]|e];
      [| by injection Hask as <- <-].
    destruct (similaritySearchVectorWithScore E _ _ _) as [results|e];
      [| by injection Hask as <- <-].
    injection Hask as <- <-. discriminate. }
  split; [exact Hst |]. rewrite Hst.
  destruct Hv as (_ & _ & _ & _ & ->). reflexivity.
Qed.

Lemma failed_ask_leaves_history_witness :
  sessionStore
    (snd (ask Sample.embeddingDown Sample.whatIsAlpha Sample.talked))
  = sessionStore Sample.talked
  ∧ history
    <$> sessionStore
          (snd (ask Sample.embeddingDown Sample.whatIsAlpha Sample.talked))
        !! Sample.sid
    = Some (history Sample.talkedSession).
Proof.
  apply (failed_ask_leaves_history Sample.embeddingDown Sample.whatIsAlpha
           Sample.talked _ "alpha?" Sample.sid Sample.talkedSession
           (failed {| message := "quota exceeded" |})).
  - repeat split.
  - reflexivity.
  - reflexivity.
Defined.

Lemma retrieval_cases (E : Collaborators) (q : string) (s : Session)
  (w : World) :
  (∃ results, retrieves E q s w results)
  ∨ (∃ e, retrievalThrows E q s w e).
Proof.
  unfold retrieves, retrievalThrows.
  destruct (embedQuery E (transformedQuery E q (history s))) as [v|e] eqn:He.
  2: { right. exists e. do 2 eexists.
       split; [apply transformQuery_eval |]. by left. }
  destruct (fromExistingIndex E (namespace s)) as [[]|e] eqn:Hi.
  2: { right. exists e. do 2 eexists.
       split; [apply transformQuery_eval |]. right. exists v. auto. }
  destruct (similaritySearchVectorWithScore E (namespace s) v 10)
    as [results|e] eqn:Hr.
  - left. exists results. do 3 eexists.
    split; [apply transformQuery_eval |]. eauto.
  - right. exists e. do 2 eexists.
    split; [apply transformQuery_eval |]. right. exists v. auto.
Qed.

(** C2, as the code has it: a validated /ask request always gets a
    response, which is
    - 200 with an answer when the retrieval stage completes, whatever the
      rewriting and generation models do; the answer is the canonical
      refusal string when the generation model throws;
    - 500 with "Failed to process question: " and the error's message when
      the embedding call, the opening of the index or the similarity search
      throws. *)
Theorem ask_degradation
  (E : Collaborators) (req : AskRequest) (w : World) (q sid : string)
  (s : Session) :
  passesValidation req w q sid s →
  ∃ res w',
    ask E req w = (Normal res, w')
    ∧ ((∃ results a,
          retrieves E q s w results
          ∧ res = {| status := 200; body := AnswerBody a |}
          ∧ (∀ e, answerModel E (prompt q (context results)) = Throw e →
                  a = "I couldn't find the answer in the document."))
       ∨ (∃ e,
            retrievalThrows E q s w e
            ∧ res = {| status := 500;
                       body := ErrorBody ("Failed to process question: "
                                          +:+ message e) |})).
Proof.
  intros Hv. rewrite (ask_eval E req w q sid s Hv).
  destruct (retrieval_cases E q s w) as [[results Hr] | [e Ht]].
  - pose proof Hr as Hr'. apply retrieves_inv in Hr' as (v & He & Hi & Hs).
    unfold askOutcome. rewrite He, Hi, Hs. do 2 eexists.
    split; [reflexivity |]. left. exists results, (answerOf E q results).
    split; [done |]. split; [done |].
    intros e Hthrow. unfold answerOf, generatedAnswer. rewrite Hthrow.
    by destruct (truthy (context results)).
  - pose proof Ht as (tq & w1 & Htq & Hcases).
    rewrite transformQuery_eval in Htq. injection Htq as <- _.
    unfold askOutcome.
    destruct Hcases as [He | (v & He & [Hi | [Hi Hs]])].
    + rewrite He. do 2 eexists. split; [reflexivity |]. right. by exists e.
    + rewrite He, Hi. do 2 eexists. split; [reflexivity |]. right.
      by exists e.
    + rewrite He, Hi, Hs. do 2 eexists. split; [reflexivity |]. right.
      by exists e.
Qed.

Lemma ask_degradation_witness :
  ∃ res w',
    ask Sample.generatorDown Sample.whatIsAlpha Sample.fresh = (Normal res, w')
    ∧ ((∃ results a,
          retrieves Sample.generatorDown "alpha?" Sample.freshSession
            Sample.fresh results
          ∧ res = {| status := 200; body := AnswerBody a |}
          ∧ (∀ e, answerModel Sample.generatorDown
                    (prompt "alpha?" (context results)) = Throw e →
                  a = "I couldn't find the answer in the document."))
       ∨ (∃ e,
            retrievalThrows Sample.generatorDown "alpha?" Sample.freshSession
              Sample.fresh e
            ∧ res = {| status := 500;
                       body := ErrorBody ("Failed to process question: "
                                          +:+ message e) |})).
Proof.
  apply (ask_degradation Sample.generatorDown Sample.whatIsAlpha Sample.fresh
           "alpha?" Sample.sid Sample.freshSession).
  repeat split.
Defined.

(** C2 as stated fails: the request below passes both validation checks,
    the embedding call throws, and the response is a 500, not a 200 with
    the refusal string. *)
Lemma embedding_failure_is_surfaced :
  passesValidation Sample.whatIsAlpha Sample.fresh "alpha?" Sample.sid
    Sample.freshSession
  ∧ embedQuery Sample.embeddingDown "alpha?"
    = Throw {| message := "quota exceeded" |}
  ∧ ask Sample.embeddingDown Sample.whatIsAlpha Sample.fresh
    = (Normal {| status := 500;
                 body := ErrorBody
                           "Failed to process question: quota exceeded" |},
       logged [CallEmbedQuery "alpha?"] Sample.fresh).
Proof. repeat split. Qed.

(** C6, as the code has it: on a validated /ask request with a non-empty
    history whose rewriting call throws, [transformQuery] returns the
    original question, the embedding call that opens the retrieval stage
    gets that question, and the response is 200 when the embedding call,
    the opening of the index and the similarity search complete; in every
    case it is the response the request gets from a rewriting model that
    returns the question unchanged. *)
Theorem rewriting_failure_degrades
  (E : Collaborators) (req : AskRequest) (w : World) (q sid : string)
  (s : Session) (e : Error) :
  passesValidation req w q sid s →
  history s ≠ [] →
  rewriteModel E (history s ++ [userTurn q])%list = Throw e →
  fst (transformQuery E q (history s) w) = Normal q
  ∧ (∃ rest,
       callsDuring w (snd (ask E req w))
       = CallRewrite (history s ++ [userTurn q])%list
           :: CallEmbedQuery q :: rest)
  ∧ (∀ v results,
       embedQuery E q = Normal v →
       fromExistingIndex E (namespace s) = Normal tt →
       similaritySearchVectorWithScore E (namespace s) v 10%nat
       = Normal results →
       ∃ a, fst (ask E req w)
            = Normal {| status := 200; body := AnswerBody a |})
  ∧ fst (ask E req w)
    = fst (ask (withRewriter E (fun _ => Normal q)) req w).
Proof.
  intros Hv Hne Hthrow.
  assert (fst (ask E req w)
          = fst (ask (withRewriter E (fun _ => Normal q)) req w)) as Hsame.
  { rewrite (ask_eval E req w q sid s Hv), (ask_eval _ req w q sid s Hv).
    unfold askOutcome, answerOf, generatedAnswer, transformedQuery.
    rewrite Hthrow. simpl.
    destruct (history s) as [|t h]; [done |].
    destruct (embedQuery E q) as [v|e1]; [| done].
    destruct (fromExistingIndex E (namespace s)) as [[]|e1]; [| done].
    by destruct (similaritySearchVectorWithScore E (namespace s) v 10). }
  assert (transformedQuery E q (history s) = q) as Htq.
  { unfold transformedQuery. rewrite Hthrow. by destruct (history s). }
  assert (rewriteCalls q (history s)
          = [CallRewrite (history s ++ [userTurn q])%list]) as Hcalls.
  { unfold rewriteCalls. by destruct (history s). }
  split; [rewrite transformQuery_eval; simpl; by rewrite Htq |].
  split; [| split; [| exact Hsame]]; clear Hsame;
    rewrite (ask_eval E req w q sid s Hv);
    unfold askOutcome; rewrite Htq, Hcalls.
  - destruct (embedQuery E q) as [v|e1].
    2: { simpl. rewrite callsDuring_logged. by eexists. }
    destruct (fromExistingIndex E (namespace s)) as [[]|e1].
    2: { simpl. rewrite callsDuring_logged. by eexists. }
    destruct (similaritySearchVectorWithScore E (namespace s) v 10)
      as [results|e1]; simpl; rewrite callsDuring_logged; by eexists.
  - intros v results He Hi Hs. rewrite He, Hi, Hs. by eexists.
Qed.

Lemma rewriting_failure_degrades_witness :
  fst (transformQuery Sample.rewriterDown "alpha?"
         (history Sample.talkedSession) Sample.talked)
  = Normal "alpha?"
  ∧ (∃ rest,
       callsDuring Sample.talked
         (snd (ask Sample.rewriterDown Sample.whatIsAlpha Sample.talked))
       = CallRewrite (history Sample.talkedSession ++ [userTurn "alpha?"])%list
           :: CallEmbedQuery "alpha?" :: rest)
  ∧ ∃ a, fst (ask Sample.rewriterDown Sample.whatIsAlpha Sample.talked)
         = Normal {| status := 200; body := AnswerBody a |}.
Proof.
  destruct (rewriting_failure_degrades Sample.rewriterDown Sample.whatIsAlpha
              Sample.talked "alpha?" Sample.sid Sample.talkedSession
              {| message := "quota exceeded" |})
    as (H1 & H2 & H3 & _).
  - repeat split.
  - discriminate.
  - reflexivity.
  - split; [exact H1 |]. split; [exact H2 |].
    apply (H3 [1 # 1] Sample.mixed); reflexivity.
Defined.

(** C6 as stated fails: the session has two turns, the request passes both
    checks, and the rewriting call throws; the embedding call throws as
    well, and the response is a 500, not a 200. *)
Lemma rewriting_failure_then_embedding_failure :
  passesValidation Sample.whatIsAlpha Sample.talked "alpha?" Sample.sid
    Sample.talkedSession
  ∧ history Sample.talkedSession ≠ []
  ∧ rewriteModel rewriterAndEmbeddingDown
      (history Sample.talkedSession ++ [userTurn "alpha?"])%list
    = Throw {| message := "quota exceeded" |}
  ∧ fst (transformQuery rewriterAndEmbeddingDown "alpha?"
           (history Sample.talkedSession) Sample.talked)
    = Normal "alpha?"
  ∧ ask rewriterAndEmbeddingDown Sample.whatIsAlpha Sample.talked
    = (Normal {| status := 500;
                 body := ErrorBody
                   "Failed to process question: embedding unavailable" |},
       logged [CallRewrite
                 (history Sample.talkedSession ++ [userTurn "alpha?"])%list;
               CallEmbedQuery "alpha?"] Sample.talked).
Proof. repeat split. discriminate. Qed.

(** * The /upload handler *)

(** A failure of the loader, the splitter or the indexing call leaves the
    session store as it was and is answered with a 500. *)
Lemma ingestion_failure_leaves_registry
  (E : Collaborators) (req : UploadRequest) (w : World) (pdfPath : string)
  (e : Error) :
  file req = Some pdfPath →
  pdfLoad E pdfPath = Throw e
  ∨ (∃ rawDocs, pdfLoad E pdfPath = Normal rawDocs
       ∧ (splitDocuments E rawDocs = Throw e
          ∨ ∃ chunkedDocs, splitDocuments E rawDocs = Normal chunkedDocs
              ∧ fromDocuments E chunkedDocs
                  ("pdf-" +:+ pretty (dateNow E)) = Throw e)) →
  fst (upload E req w) = Normal (uploadFailed e)
  ∧ sessionStore (snd (upload E req w)) = sessionStore w.
Proof.
  intros Hfile H. unfold upload. rewrite Hfile. unfold_M.
  destruct H as [-> | (rawDocs & -> & [-> | (chunkedDocs & -> & ->)])];
    done.
Qed.


(** C3, at the failing input: loading, splitting and indexing succeed and
    [describeIndexStats] throws.  The response is a 500, yet the session
    registered at l.96 stays in the store, which held no session before. *)
Theorem stats_failure_leaves_session :
  sessionStore Sample.boot = ∅
  ∧ upload Sample.statsDown Sample.pdf Sample.boot
    = (Normal {| status := 500;
                 body := ErrorBody
                           "Failed to process PDF: stats unavailable" |},
       {| sessionStore :=
            {[ "1700000000000" :=
                 {| namespace := "pdf-1700000000000"; history := [] |} ]};
          calls :=
            [CallPdfLoad "uploads/pdf-1.pdf";
             CallSplitDocuments [Sample.doc "page one"];
             CallFromDocuments [Sample.doc "page one"] "pdf-1700000000000";
             CallDescribeIndexStats] |}).
Proof. split; reflexivity. Qed.

(** * Runs of requests and the history of a session *)

Lemma serve_ask (E : Collaborators) (req : AskRequest) (w w' : World)
  (res : Response) :
  ask E req w = (Normal res, w') → serve E (Ask req) w = (res, w').
Proof. intros H. unfold serve. simpl. by rewrite H. Qed.

Lemma askOutcome_cases (E : Collaborators) (q sid : string) (s : Session)
  (st : gmap string Session) :
  (∃ e l, askOutcome E q sid s st = (failed e, st, l))
  ∨ (∃ a l, askOutcome E q sid s st
            = (json (AnswerBody a), appended sid q a st, l)).
Proof.
  unfold askOutcome.
  destruct (embedQuery E _) as [v|e]; [| left; by do 2 eexists].
  destruct (fromExistingIndex E _) as [[]|e]; [| left; by do 2 eexists].
  destruct (similaritySearchVectorWithScore E _ _ _) as [results|e];
    [right | left]; by do 2 eexists.
Qed.

Lemma turnsOf_app (l1 l2 : list (string * string)) :
  turnsOf (l1 ++ l2) = (turnsOf l1 ++ turnsOf l2)%list.
Proof.
  induction l1 as [|[q a] l1 IH]; [done |]. simpl. by rewrite IH.
Qed.

Lemma turnsOf_length (qa : list (string * string)) :
  List.length (turnsOf qa) = (2 * List.length qa)%nat.
Proof. induction qa as [|[q a] qa IH]; simpl; [done | lia]. Qed.









(** * The same question asked twice *)

Lemma serve_valid (E : Collaborators) (req : AskRequest) (w : World)
  (q sid : string) (s : Session) :
  passesValidation req w q sid s →
  serve E (Ask req) w
  = let '(res, st, l) := askOutcome E q sid s (sessionStore w) in
    (res, {| sessionStore := st; calls := (calls w ++ l)%list |}).
Proof.
  intros Hv. pose proof (ask_eval E req w q sid s Hv) as Hask.
  destruct (askOutcome E q sid s (sessionStore w)) as [[res st] l].
  by apply serve_ask.
Qed.

Lemma askOutcome_calls (E : Collaborators) (q sid : string) (s : Session)
  (st : gmap string Session) :
  ∃ rest,
    snd (askOutcome E q sid s st)
    = (rewriteCalls q (history s)
       ++ CallEmbedQuery (transformedQuery E q (history s)) :: rest)%list
    ∧ Forall (fun c => isRewrite c = false) rest.
Proof.
  unfold askOutcome.
  destruct (embedQuery E _) as [v|e].
  2: { exists []. by split. }
  destruct (fromExistingIndex E _) as [[]|e].
  2: { eexists. simpl. rewrite <- app_assoc. split; [done |].
       by repeat constructor. }
  destruct (similaritySearchVectorWithScore E _ _ _) as [results|e].
  2: { eexists. simpl. rewrite <- app_assoc. split; [done |].
       by repeat constructor. }
  eexists. simpl. rewrite <- app_assoc. split; [done |].
  unfold generateCalls. destruct (truthy (context results));
    by repeat constructor.
Qed.

(** The calls of a validated /ask request: the rewriting call if the
    history is not empty, then the embedding of the transformed query. *)
Lemma serve_valid_calls (E : Collaborators) (req : AskRequest) (w : World)
  (q sid : string) (s : Session) :
  passesValidation req w q sid s →
  ∃ rest,
    callsDuring w (snd (serve E (Ask req) w))
    = (rewriteCalls q (history s)
       ++ CallEmbedQuery (transformedQuery E q (history s)) :: rest)%list
    ∧ Forall (fun c => isRewrite c = false) rest.
Proof.
  intros Hv. rewrite (serve_valid E req w q sid s Hv).
  destruct (askOutcome_calls E q sid s (sessionStore w)) as (rest & Hl & Hr).
  destruct (askOutcome E q sid s (sessionStore w)) as [[res st] l].
  simpl in *. rewrite callsDuring_logged. by exists rest.
Qed.

(** The state a validated /ask request leaves: the store is untouched
    unless the response is a 200, and then the two turns are appended. *)
Lemma serve_valid_store (E : Collaborators) (req : AskRequest) (w : World)
  (q sid : string) (s : Session) :
  passesValidation req w q sid s →
  (status (fst (serve E (Ask req) w)) = 500%nat
   ∧ sessionStore (snd (serve E (Ask req) w)) = sessionStore w)
  ∨ (∃ a, fst (serve E (Ask req) w) = json (AnswerBody a)
          ∧ sessionStore (snd (serve E (Ask req) w))
            = appended sid q a (sessionStore w)).
Proof.
  intros Hv. rewrite (serve_valid E req w q sid s Hv).
  destruct (askOutcome_cases E q sid s (sessionStore w))
    as [(e & l & ->) | (a & l & ->)]; [by left | right; by exists a].
Qed.

(** C8, as the code has it: in a session with an empty history the first
    ask makes no rewriting call and its retrieval starts by embedding the
    question as asked.  If that ask is answered (200), the same question
    asked again finds the two turns in the history: the rewriting model is
    called with them and the question, and the retrieval embeds what the
    model returns (the question itself if the call throws).  If the first
    ask is not answered, the second behaves like the first. *)
Theorem repeated_question
  (E1 E2 : Collaborators) (req : AskRequest) (w : World) (q sid : string)
  (s : Session) :
  passesValidation req w q sid s →
  history s = [] →
  let first := serve E1 (Ask req) w in
  let second := serve E2 (Ask req) (snd first) in
  (∃ rest,
     callsDuring w (snd first) = CallEmbedQuery q :: rest
     ∧ Forall (fun c => isRewrite c = false) rest)
  ∧ (∀ a,
       fst first = {| status := 200; body := AnswerBody a |} →
       let contents := [userTurn q; modelTurn a; userTurn q] in
       ∃ rest,
         callsDuring (snd first) (snd second)
         = CallRewrite contents
             :: CallEmbedQuery (match rewriteModel E2 contents with
                                | Normal t => t
                                | Throw _ => q
                                end)
             :: rest)
  ∧ (status (fst first) ≠ 200%nat →
     ∃ rest,
       callsDuring (snd first) (snd second) = CallEmbedQuery q :: rest
       ∧ Forall (fun c => isRewrite c = false) rest).
Proof.
  intros Hv Hempty first second.
  pose proof (serve_valid_calls E1 req w q sid s Hv) as (rest1 & Hc1 & Hr1).
  rewrite Hempty in Hc1. simpl in Hc1.
  pose proof (serve_valid_store E1 req w q sid s Hv) as Hstore.
  fold first in Hc1, Hstore.
  pose proof Hv as (Hq & Hsid & Htq & Htsid & Hs).
  split; [by exists rest1 |]. split.
  - intros a Ha contents.
    destruct Hstore as [[H500 _] | (a' & Ha' & Hst)].
    { rewrite Ha in H500. discriminate. }
    rewrite Ha in Ha'. injection Ha' as <-.
    assert (passesValidation req (snd first) q sid
              (push (modelTurn a) (push (userTurn q) s))) as Hv2.
    { repeat split; try done. rewrite Hst. unfold appended.
      by rewrite !lookup_alter_eq, Hs. }
    pose proof (serve_valid_calls E2 req (snd first) q sid _ Hv2)
      as (rest2 & Hc2 & _).
    fold second in Hc2. simpl in Hc2. rewrite Hempty in Hc2.
    simpl in Hc2. by exists rest2.
  - intros Hnot.
    destruct Hstore as [[_ Hst] | (a' & Ha' & _)].
    2: { rewrite Ha' in Hnot. done. }
    assert (passesValidation req (snd first) q sid s) as Hv2.
    { repeat split; try done. by rewrite Hst. }
    pose proof (serve_valid_calls E2 req (snd first) q sid s Hv2)
      as (rest2 & Hc2 & Hr2).
    fold second in Hc2. rewrite Hempty in Hc2. simpl in Hc2.
    by exists rest2.
Qed.

Lemma repeated_question_witness :
  let first := serve Sample.healthy (Ask Sample.whatIsAlpha) Sample.fresh in
  let second := serve Sample.rewriterDown (Ask Sample.whatIsAlpha) (snd first) in
  (∃ rest,
     callsDuring Sample.fresh (snd first) = CallEmbedQuery "alpha?" :: rest
     ∧ Forall (fun c => isRewrite c = false) rest)
  ∧ ∃ rest,
      callsDuring (snd first) (snd second)
      = CallRewrite [userTurn "alpha?";
                     modelTurn "Alpha is the first letter.";
                     userTurn "alpha?"]
          :: CallEmbedQuery "alpha?" :: rest.
Proof.
  intros first second.
  destruct (repeated_question Sample.healthy Sample.rewriterDown
              Sample.whatIsAlpha Sample.fresh "alpha?" Sample.sid
              Sample.freshSession)
    as (H1 & H2 & _).
  - repeat split.
  - reflexivity.
  - split; [exact H1 |].
    apply (H2 "Alpha is the first letter."). reflexivity.
Defined.

(** C8 as stated fails: the question is asked twice in a session that
    starts with an empty history; the first ask is answered, and the second
    calls the rewriting model and embeds the rewritten query. *)
Lemma second_ask_is_rewritten :
  let first := serve Sample.healthy (Ask Sample.whatIsAlpha) Sample.fresh in
  let second := serve Sample.healthy (Ask Sample.whatIsAlpha) (snd first) in
  history Sample.freshSession = []
  ∧ fst first
    = {| status := 200; body := AnswerBody "Alpha is the first letter." |}
  ∧ take 2 (callsDuring (snd first) (snd second))
    = [CallRewrite [userTurn "alpha?";
                    modelTurn "Alpha is the first letter.";
                    userTurn "alpha?"];
       CallEmbedQuery "what is alpha?"]
  ∧ "what is alpha?" ≠ "alpha?".
Proof. repeat split. discriminate. Qed.

(** * Further properties of the handlers *)

(** ** Validation *)

(** X1: an /ask request whose question or session id is absent or the
    empty string is answered 400 "Missing question or session ID"; the
    session store is untouched and no collaborator is called. *)
Theorem ask_missing_field
  (E : Collaborators) (req : AskRequest) (w : World) :
  question req = None ∨ question req = Some ""
  ∨ sessionId req = None ∨ sessionId req = Some "" →
  ask E req w
  = (Normal {| status := 400;
               body := ErrorBody "Missing question or session ID" |}, w).
Proof.
  intros H. unfold ask. unfold_M.
  destruct (question req) as [[|c q]|], (sessionId req) as [[|c' sid]|];
    try reflexivity.
  destruct H as [H | [H | [H | H]]]; discriminate.
Qed.

Lemma ask_missing_field_witness :
  ask Sample.healthy {| question := Some ""; sessionId := Some Sample.sid |}
    Sample.fresh
  = (Normal {| status := 400;
               body := ErrorBody "Missing question or session ID" |},
     Sample.fresh).
Proof.
  apply (ask_missing_field Sample.healthy
           {| question := Some ""; sessionId := Some Sample.sid |}
           Sample.fresh).
  right. left. reflexivity.
Defined.

(** X2: an /ask request with a question and a session id that is not in the
    store is answered 400 "Invalid session ID"; the store is untouched and
    no collaborator is called. *)
Theorem ask_unknown_session
  (E : Collaborators) (req : AskRequest) (w : World) (q sid : string) :
  question req = Some q → sessionId req = Some sid →
  q ≠ "" → sid ≠ "" →
  sessionStore w !! sid = None →
  ask E req w
  = (Normal {| status := 400; body := ErrorBody "Invalid session ID" |}, w).
Proof.
  intros Hq Hsid Hqne Hsidne Hnone. unfold ask. rewrite Hq, Hsid.
  destruct q as [|c q]; [done |]. destruct sid as [|c' sid]; [done |].
  unfold_M. simpl. by rewrite Hnone.
Qed.

Lemma ask_unknown_session_witness :
  ask Sample.healthy Sample.whatIsAlpha Sample.boot
  = (Normal {| status := 400; body := ErrorBody "Invalid session ID" |},
     Sample.boot).
Proof.
  apply (ask_unknown_session Sample.healthy Sample.whatIsAlpha Sample.boot
           "alpha?" Sample.sid); done.
Defined.

(** X3: an /upload request without a file is answered 400 "No file
    uploaded"; nothing is loaded, indexed or registered. *)
Theorem upload_no_file
  (E : Collaborators) (req : UploadRequest) (w : World) :
  file req = None →
  upload E req w
  = (Normal {| status := 400; body := ErrorBody "No file uploaded" |}, w).
Proof. intros H. unfold upload. rewrite H. reflexivity. Qed.

Lemma upload_no_file_witness :
  upload Sample.healthy {| file := None |} Sample.fresh
  = (Normal {| status := 400; body := ErrorBody "No file uploaded" |},
     Sample.fresh).
Proof.
  apply (upload_no_file Sample.healthy {| file := None |} Sample.fresh).
  reflexivity.
Defined.

(** ** Ingestion *)

(** X4: when the loader, the splitter, the indexing call and the stats
    call complete, /upload answers 200 with the decimal reading of the
    clock as session id.  The chunks indexed are the splitter's output on
    the loader's output, under the namespace "pdf-" + id; the session
    registered under the id has that namespace and an empty history, and
    replaces any session the store held under the same id. *)
Theorem upload_success
  (E : Collaborators) (req : UploadRequest) (w : World) (pdfPath stats : string)
  (rawDocs chunkedDocs : list Document) :
  file req = Some pdfPath →
  pdfLoad E pdfPath = Normal rawDocs →
  splitDocuments E rawDocs = Normal chunkedDocs →
  fromDocuments E chunkedDocs ("pdf-" +:+ pretty (dateNow E)) = Normal tt →
  describeIndexStats E = Normal stats →
  let sid := pretty (dateNow E) in
  upload E req w
  = (Normal {| status := 200;
               body := UploadBody "PDF processed successfully" sid |},
     {| sessionStore :=
          <[sid := {| namespace := "pdf-" +:+ sid; history := [] |}]>
            (sessionStore w);
        calls :=
          (calls w ++ [CallPdfLoad pdfPath; CallSplitDocuments rawDocs;
                       CallFromDocuments chunkedDocs ("pdf-" +:+ sid);
                       CallDescribeIndexStats])%list |}).
Proof.
  intros Hfile Hload Hsplit Hindex Hstats sid. unfold upload.
  rewrite Hfile. unfold_M. fold sid. rewrite Hload, Hsplit.
  fold sid in Hindex. rewrite Hindex, Hstats. simpl.
  by rewrite <- !app_assoc.
Qed.

Lemma upload_success_witness :
  upload Sample.healthy Sample.pdf Sample.talked
  = (Normal {| status := 200;
               body := UploadBody "PDF processed successfully"
                         "1700000000000" |},
     {| sessionStore :=
          <["1700000000000" :=
              {| namespace := "pdf-1700000000000"; history := [] |}]>
            (sessionStore Sample.talked);
        calls :=
          [CallPdfLoad "uploads/pdf-1.pdf";
           CallSplitDocuments [Sample.doc "page one"];
           CallFromDocuments [Sample.doc "page one"] "pdf-1700000000000";
           CallDescribeIndexStats] |}).
Proof.
  apply (upload_success Sample.healthy Sample.pdf Sample.talked
           "uploads/pdf-1.pdf" "{}" [Sample.doc "page one"]
           [Sample.doc "page one"]); reflexivity.
Defined.

(** X5: when the loader, the splitter or the indexing call throws, /upload
    answers 500 with "Failed to process PDF: " and the error's message, no
    session is registered and the stats call is not made. *)
Theorem upload_failure_before_registration
  (E : Collaborators) (req : UploadRequest) (w : World) (pdfPath : string)
  (e : Error) :
  file req = Some pdfPath →
  pdfLoad E pdfPath = Throw e
  ∨ (∃ rawDocs, pdfLoad E pdfPath = Normal rawDocs
       ∧ (splitDocuments E rawDocs = Throw e
          ∨ ∃ chunkedDocs, splitDocuments E rawDocs = Normal chunkedDocs
              ∧ fromDocuments E chunkedDocs
                  ("pdf-" +:+ pretty (dateNow E)) = Throw e)) →
  fst (upload E req w)
  = Normal {| status := 500;
              body := ErrorBody ("Failed to process PDF: " +:+ message e) |}
  ∧ sessionStore (snd (upload E req w)) = sessionStore w
  ∧ CallDescribeIndexStats ∉ callsDuring w (snd (upload E req w)).
Proof.
  intros Hfile H. unfold upload. rewrite Hfile. unfold_M.
  destruct H as [-> | (rawDocs & -> & [-> | (chunkedDocs & -> & ->)])];
    cbn [fst snd sessionStore calls]; (split; [done |]); (split; [done |]);
    unfold callsDuring; cbn [calls];
    rewrite <- ?app_assoc, drop_app_length; simpl; intros Hin;
    repeat (apply elem_of_cons in Hin as [Hin | Hin]; [discriminate |]);
    by apply elem_of_nil in Hin.
Qed.

Lemma upload_failure_before_registration_witness :
  fst (upload Scenario.splitterDown Sample.pdf Sample.boot)
  = Normal {| status := 500;
              body := ErrorBody "Failed to process PDF: no text" |}
  ∧ sessionStore (snd (upload Scenario.splitterDown Sample.pdf Sample.boot))
    = ∅
  ∧ CallDescribeIndexStats
    ∉ callsDuring Sample.boot
        (snd (upload Scenario.splitterDown Sample.pdf Sample.boot)).
Proof.
  apply (upload_failure_before_registration Scenario.splitterDown Sample.pdf
           Sample.boot "uploads/pdf-1.pdf" {| message := "no text" |}).
  - reflexivity.
  - right. exists [Sample.doc "page one"]. split; [reflexivity |].
    left. reflexivity.
Defined.

(** ** Sessions *)

Lemma pretty_N_go_nonempty (x : N) : ∀ s, s ≠ "" → pretty_N_go x s ≠ "".
Proof.
  induction (N.lt_wf_0 x) as [x _ IH]. intros s Hs.
  destruct (decide (x = 0)%N) as [-> | Hx].
  - by rewrite pretty_N_go_0.
  - rewrite pretty_N_go_step by lia. apply IH; [| done].
    apply N.div_lt; lia.
Qed.

(** The decimal rendering of a clock reading is never the empty string. *)
Lemma sessionId_nonempty (now : N) : truthy (pretty now) = true.
Proof.
  assert (pretty now ≠ "") as H.
  { unfold pretty, pretty_N. destruct (decide (now = 0)%N); [done |].
    rewrite pretty_N_go_step by lia. by apply pretty_N_go_nonempty. }
  by destruct (pretty now).
Qed.

Lemma upload_store_cases (E : Collaborators) (r : UploadRequest) (w : World) :
  sessionStore (snd (serve E (Upload r) w)) = sessionStore w
  ∨ sessionStore (snd (serve E (Upload r) w))
    = <[pretty (dateNow E) := registered (pretty (dateNow E))]>
        (sessionStore w).
Proof.
  unfold serve. simpl. unfold upload. unfold_M.
  destruct (file r) as [pdfPath|]; [| by left].
  destruct (pdfLoad E pdfPath) as [rawDocs|e]; [| by left].
  destruct (splitDocuments E rawDocs) as [chunkedDocs|e]; [| by left].
  destruct (fromDocuments E chunkedDocs _) as [[]|e]; [| by left].
  destruct (describeIndexStats E) as [stats|e]; by right.
Qed.

(** An upload answered 200 carries the generated id and has registered the
    session. *)
Lemma upload_answered (E : Collaborators) (r : UploadRequest) (w : World)
  (msg sid : string) :
  fst (serve E (Upload r) w) = json (UploadBody msg sid) →
  sid = pretty (dateNow E)
  ∧ sessionStore (snd (serve E (Upload r) w))
    = <[sid := registered sid]> (sessionStore w).
Proof.
  unfold serve. simpl. unfold upload. unfold_M.
  destruct (file r) as [pdfPath|]; [| discriminate].
  destruct (pdfLoad E pdfPath) as [rawDocs|e]; [| discriminate].
  destruct (splitDocuments E rawDocs) as [chunkedDocs|e]; [| discriminate].
  destruct (fromDocuments E chunkedDocs _) as [[]|e]; [| discriminate].
  destruct (describeIndexStats E) as [stats|e]; [| discriminate].
  simpl. intros [= _ <-]. done.
Qed.

Lemma askOutcome_within (E : Collaborators) (q sid : string) (s : Session)
  (st : gmap string Session) :
  Forall (withinNamespace (namespace s)) (snd (askOutcome E q sid s st)).
Proof.
  assert (Forall (withinNamespace (namespace s))
            (rewriteCalls q (history s))) as Hrw.
  { unfold rewriteCalls. destruct (history s); by repeat constructor. }
  unfold askOutcome.
  destruct (embedQuery E _) as [v|e].
  2: { simpl. rewrite Forall_app. split; [done | by repeat constructor]. }
  destruct (fromExistingIndex E _) as [[]|e].
  2: { simpl. rewrite !Forall_app. by repeat constructor. }
  destruct (similaritySearchVectorWithScore E _ _ _) as [results|e].
  2: { simpl. rewrite !Forall_app. by repeat constructor. }
  simpl. rewrite !Forall_app. unfold generateCalls.
  destruct (truthy (context results)); by repeat constructor.
Qed.

(** X6: an /ask request on session [sid] opens and searches only the
    namespace stored for that session, asks for ten neighbours, and makes
    no call of the ingestion stage. *)
Theorem ask_within_namespace
  (E : Collaborators) (req : AskRequest) (w : World) (q sid : string)
  (s : Session) :
  passesValidation req w q sid s →
  Forall (withinNamespace (namespace s))
    (callsDuring w (snd (ask E req w))).
Proof.
  intros Hv. rewrite (ask_eval E req w q sid s Hv).
  pose proof (askOutcome_within E q sid s (sessionStore w)) as H.
  destruct (askOutcome E q sid s (sessionStore w)) as [[res st] l].
  simpl in *. by rewrite callsDuring_logged.
Qed.

Lemma ask_within_namespace_witness :
  Forall (withinNamespace "pdf-1700000000000")
    (callsDuring Sample.talked
       (snd (ask Sample.healthy Sample.whatIsAlpha Sample.talked))).
Proof.
  apply (ask_within_namespace Sample.healthy Sample.whatIsAlpha Sample.talked
           "alpha?" Sample.sid Sample.talkedSession).
  repeat split.
Defined.

(** X7: a question asked with the session id a successful /upload returned
    is never refused with a 400; it makes no rewriting call, its first call
    embeds the question as asked, and its vector-store calls are made on
    the namespace "pdf-" + id of that upload. *)
Theorem upload_then_ask
  (E1 E2 : Collaborators) (r : UploadRequest) (w : World)
  (msg sid q : string) :
  fst (serve E1 (Upload r) w) = json (UploadBody msg sid) →
  q ≠ "" →
  let w1 := snd (serve E1 (Upload r) w) in
  let req := {| question := Some q; sessionId := Some sid |} in
  status (fst (serve E2 (Ask req) w1)) ≠ 400%nat
  ∧ ∃ rest,
      callsDuring w1 (snd (serve E2 (Ask req) w1)) = CallEmbedQuery q :: rest
      ∧ Forall (fun c => isRewrite c = false) rest
      ∧ Forall (withinNamespace ("pdf-" +:+ sid)) rest.
Proof.
  intros Hup Hq w1 req.
  apply upload_answered in Hup as [Hsid Hst]. fold w1 in Hst.
  assert (passesValidation req w1 q sid (registered sid)) as Hv.
  { repeat split.
    - by destruct q.
    - rewrite Hsid. apply sessionId_nonempty.
    - rewrite Hst. apply lookup_insert_eq. }
  split.
  - destruct (serve_valid_store E2 req w1 q sid _ Hv)
      as [[-> _] | (a & -> & _)]; done.
  - pose proof (serve_valid_calls E2 req w1 q sid _ Hv) as (rest & Hc & Hr).
    simpl in Hc. exists rest. split; [done |]. split; [done |].
    pose proof (askOutcome_within E2 q sid (registered sid) (sessionStore w1))
      as Hin.
    rewrite (serve_valid E2 req w1 q sid _ Hv) in Hc.
    destruct (askOutcome E2 q sid (registered sid) (sessionStore w1))
      as [[res st] l].
    simpl in Hc, Hin. rewrite callsDuring_logged in Hc. rewrite Hc in Hin.
    by apply Forall_cons in Hin as [_ Hin].
Qed.

Lemma upload_then_ask_witness :
  let w1 := snd (serve Sample.healthy (Upload Sample.pdf) Sample.boot) in
  let req := {| question := Some "alpha?"; sessionId := Some Sample.sid |} in
  status (fst (serve Sample.healthy (Ask req) w1)) ≠ 400%nat
  ∧ ∃ rest,
      callsDuring w1 (snd (serve Sample.healthy (Ask req) w1))
      = CallEmbedQuery "alpha?" :: rest
      ∧ Forall (fun c => isRewrite c = false) rest
      ∧ Forall (withinNamespace ("pdf-" +:+ Sample.sid)) rest.
Proof.
  apply (upload_then_ask Sample.healthy Sample.healthy Sample.pdf Sample.boot
           "PDF processed successfully" Sample.sid "alpha?").
  - reflexivity.
  - discriminate.
Defined.

(** X8: an /ask request neither adds nor removes a session.  Every session
    keeps its namespace and its history as a prefix of the new one, and a
    session other than the one named in the request is left as it is. *)
Theorem ask_touches_one_session
  (E : Collaborators) (req : AskRequest) (w : World) :
  let w' := snd (serve E (Ask req) w) in
  dom (sessionStore w') = dom (sessionStore w)
  ∧ ∀ sid s,
      sessionStore w !! sid = Some s →
      ∃ s', sessionStore w' !! sid = Some s'
            ∧ namespace s' = namespace s
            ∧ history s `prefix_of` history s'
            ∧ (sessionId req ≠ Some sid → s' = s).
Proof.
  intros w'.
  assert (sessionStore w' = sessionStore w
          ∨ ∃ q sid a, sessionId req = Some sid
                       ∧ sessionStore w' = appended sid q a (sessionStore w))
    as [-> | (q & sid0 & a & Hsid & ->)].
  { unfold w'. destruct (passesValidation_dec req w)
      as [(q & sid & s & Hv) | Hno].
    - destruct (serve_valid_store E req w q sid s Hv)
        as [[_ ->] | (a & _ & ->)]; [by left | right].
      exists q, sid, a. split; [| done]. by destruct Hv as (_ & -> & _).
    - destruct (ask_invalid E req w Hno) as [msg Hask].
      rewrite (serve_ask _ _ _ _ _ Hask). by left. }
  - split; [done |]. intros sid s Hs. exists s. by repeat split.
  - unfold appended. split; [by rewrite !dom_alter_L |].
    intros sid s Hs. destruct (decide (sid0 = sid)) as [-> | Hne].
    + rewrite !lookup_alter_eq, Hs. simpl. eexists. split; [done |].
      split; [done |]. split; [| by intros []].
      simpl. rewrite <- app_assoc. by apply prefix_app_r.
    + rewrite !lookup_alter_ne by done. exists s. by repeat split.
Qed.

(** ** Invariants of the session store *)

Lemma ask_store_cases (E : Collaborators) (req : AskRequest) (w : World) :
  sessionStore (snd (serve E (Ask req) w)) = sessionStore w
  ∨ ∃ q sid s a,
      sessionStore w !! sid = Some s
      ∧ sessionStore (snd (serve E (Ask req) w))
        = <[sid := push (modelTurn a) (push (userTurn q) s)]> (sessionStore w).
Proof.
  destruct (passesValidation_dec req w) as [(q & sid & s & Hv) | Hno].
  - destruct (serve_valid_store E req w q sid s Hv)
      as [[_ ->] | (a & _ & ->)]; [by left | right].
    destruct Hv as (_ & _ & _ & _ & Hs). exists q, sid, s, a.
    split; [done |]. unfold appended. apply map_eq. intros i.
    destruct (decide (sid = i)) as [-> | Hne].
    + by rewrite !lookup_alter_eq, lookup_insert_eq, Hs.
    + by rewrite !lookup_alter_ne, lookup_insert_ne.
  - destruct (ask_invalid E req w Hno) as [msg Hask].
    rewrite (serve_ask _ _ _ _ _ Hask). by left.
Qed.

(** A property of sessions that holds of a freshly registered session and
    survives the two pushes of an answered question holds of every session
    after any run. *)
Lemma run_invariant (P : string → Session → Prop) :
  (∀ sid, P sid (registered sid)) →
  (∀ sid s q a, P sid s → P sid (push (modelTurn a) (push (userTurn q) s))) →
  ∀ reqs w,
    (∀ sid s, sessionStore w !! sid = Some s → P sid s) →
    ∀ sid s, sessionStore (snd (run reqs w)) !! sid = Some s → P sid s.
Proof.
  intros Hfresh Hpush reqs.
  induction reqs as [|[E req] reqs IH]; intros w Hw; [done |].
  simpl. destruct (serve E req w) as [res w1] eqn:Hserve.
  specialize (IH w1). destruct (run reqs w1) as [ress w2]. simpl in *.
  apply IH. intros sid s Hs.
  assert (w1 = snd (serve E req w)) as Hw1 by by rewrite Hserve.
  destruct req as [r | r].
  - destruct (upload_store_cases E r w) as [Hst | Hst];
      rewrite <- Hw1 in Hst; rewrite Hst in Hs; [by apply Hw |].
    apply lookup_insert_Some in Hs as [[<- <-] | [_ Hs]]; [done |].
    by apply Hw.
  - destruct (ask_store_cases E r w) as [Hst | (q & sid0 & s0 & a & Hs0 & Hst)];
      rewrite <- Hw1 in Hst; rewrite Hst in Hs; [by apply Hw |].
    apply lookup_insert_Some in Hs as [[<- <-] | [_ Hs]]; [| by apply Hw].
    apply Hpush. by apply Hw.
Qed.

(** X9: from the start of the server (empty store), after any run of
    /upload and /ask requests, every session in the store has the
    namespace "pdf-" followed by its own session id. *)
Theorem run_keeps_namespaces
  (reqs : list (Collaborators * Request)) (w : World) :
  sessionStore w = ∅ →
  ∀ sid s,
    sessionStore (snd (run reqs w)) !! sid = Some s →
    namespace s = "pdf-" +:+ sid.
Proof.
  intros Hempty.
  apply (run_invariant followsId); [done | done |].
  intros sid s. by rewrite Hempty, lookup_empty.
Qed.

Lemma run_keeps_namespaces_witness :
  sessionStore Sample.boot = ∅
  ∧ namespace
      {| namespace := "pdf-1700000000000";
         history := [userTurn "alpha?";
                     modelTurn "Alpha is the first letter."] |}
    = "pdf-" +:+ Sample.sid.
Proof.
  split; [reflexivity |].
  apply (run_keeps_namespaces
           [(Sample.healthy, Upload Sample.pdf);
            (Sample.healthy, Ask Sample.whatIsAlpha)] Sample.boot eq_refl
           Sample.sid).
  reflexivity.
Defined.

Lemma turnsOf_snoc (qa : list (string * string)) (q a : string) :
  turnsOf (qa ++ [(q, a)])%list
  = (turnsOf qa ++ [userTurn q; modelTurn a])%list.
Proof. by rewrite turnsOf_app. Qed.

Lemma turnsOf_roles (qa : list (string * string)) :
  rolesAlternate (turnsOf qa).
Proof.
  induction qa as [|[q a] qa IH]; intros i t Hi; [done |].
  destruct i as [|[|i]]; simpl in Hi.
  - by injection Hi as <-.
  - by injection Hi as <-.
  - apply IH in Hi. by rewrite Hi.
Qed.

(** X10: from the start of the server, after any run of /upload and /ask
    requests, the history of every session has an even number of turns
    whose roles alternate, starting with a user turn. *)
Theorem run_keeps_histories_alternating
  (reqs : list (Collaborators * Request)) (w : World) :
  sessionStore w = ∅ →
  ∀ sid s,
    sessionStore (snd (run reqs w)) !! sid = Some s →
    Nat.even (List.length (history s)) = true
    ∧ rolesAlternate (history s).
Proof.
  intros Hempty.
  assert (∀ sid s,
            sessionStore (snd (run reqs w)) !! sid = Some s →
            ∃ qa, history s = turnsOf qa) as Hinv.
  { apply (run_invariant (fun _ s => ∃ qa, history s = turnsOf qa)).
    - intros sid. by exists [].
    - intros sid s q a [qa Hqa]. exists (qa ++ [(q, a)])%list.
      simpl. by rewrite Hqa, turnsOf_snoc, <- app_assoc.
    - intros sid s. by rewrite Hempty, lookup_empty. }
  intros sid s Hs. destruct (Hinv sid s Hs) as [qa ->].
  split; [| apply turnsOf_roles].
  rewrite turnsOf_length, Nat.even_mul. done.
Qed.

Lemma run_keeps_histories_alternating_witness :
  let h := [userTurn "alpha?"; modelTurn "Alpha is the first letter.";
            userTurn "alpha?";
            modelTurn "I couldn't find the answer in the document."] in
  sessionStore Sample.boot = ∅
  ∧ Nat.even (List.length h) = true
  ∧ rolesAlternate h.
Proof.
  intros h. split; [reflexivity |].
  apply (run_keeps_histories_alternating
           [(Sample.healthy, Upload Sample.pdf);
            (Sample.healthy, Ask Sample.whatIsAlpha);
            (Sample.lowScores, Ask Sample.whatIsAlpha)] Sample.boot eq_refl
           Sample.sid {| namespace := "pdf-1700000000000"; history := h |}).
  reflexivity.
Defined.

(** X11: no request removes a session: the session ids registered before
    a run are still registered after it. *)
Theorem sessions_never_removed
  (reqs : list (Collaborators * Request)) (w : World) :
  dom (sessionStore w) ⊆ dom (sessionStore (snd (run reqs w))).
Proof.
  revert w. induction reqs as [|[E req] reqs IH]; intros w; [done |].
  simpl. destruct (serve E req w) as [res w1] eqn:Hserve.
  specialize (IH w1). destruct (run reqs w1) as [ress w2]. simpl in *.
  etrans; [| exact IH].
  assert (w1 = snd (serve E req w)) as -> by by rewrite Hserve.
  destruct req as [r | r].
  - destruct (upload_store_cases E r w) as [-> | ->]; [done |].
    rewrite dom_insert_L. apply union_subseteq_r.
  - destruct (ask_store_cases E r w) as [-> | (q & sid & s & a & Hs & ->)];
      [done |].
    rewrite dom_insert_L. apply union_subseteq_r.
Qed.

(** ** Answers *)

(** X12: the answer of a 200 response of /ask is the canonical refusal
    string, or a text the generation model returned that contains none of
    the inability phrases in any letter case. *)
Theorem answer_is_refusal_or_clean
  (E : Collaborators) (req : AskRequest) (w w' : World) (res : Response)
  (a : string) :
  ask E req w = (Normal res, w') →
  body res = AnswerBody a →
  a = "I couldn't find the answer in the document."
  ∨ (¬ Spec.expressesInability a ∧ ∃ p, answerModel E p = Normal a).
Proof.
  intros Hask Hbody.
  destruct (passesValidation_dec req w) as [(q & sid & s & Hv) | Hno].
  2: { destruct (ask_invalid E req w Hno) as [msg Hinv].
       rewrite Hinv in Hask. injection Hask as <- _. discriminate. }
  rewrite (ask_eval E req w q sid s Hv) in Hask. unfold askOutcome in Hask.
  destruct (embedQuery E _) as [v|e];
    [| injection Hask as <- _; discriminate].
  destruct (fromExistingIndex E _) as [[]|e];
    [| injection Hask as <- _; discriminate].
  destruct (similaritySearchVectorWithScore E _ _ _) as [results|e];
    [| injection Hask as <- _; discriminate].
  injection Hask as <- _. injection Hbody as <-.
  unfold answerOf, generatedAnswer.
  destruct (truthy (context results)); [| by left].
  destruct (answerModel E _) as [text|e] eqn:Hmodel; [| by left].
  destruct (includes (toLowerCase text) "couldn't find"
            || includes (toLowerCase text) "don't know") eqn:Htest;
    [by left | right].
  split; [| by eexists]. intros Hin. apply inability_test in Hin.
  congruence.
Qed.

Lemma answer_is_refusal_or_clean_witness :
  "Alpha is the first letter."
  = "I couldn't find the answer in the document."
  ∨ (¬ Spec.expressesInability "Alpha is the first letter."
     ∧ ∃ p, answerModel Sample.healthy p
            = Normal "Alpha is the first letter.").
Proof.
  apply (answer_is_refusal_or_clean Sample.healthy Sample.whatIsAlpha
           Sample.fresh
           (snd (ask Sample.healthy Sample.whatIsAlpha Sample.fresh))
           (json (AnswerBody "Alpha is the first letter."))).
  - reflexivity.
  - reflexivity.
Defined.

(** X13: in a session with earlier turns, when every collaborator
    completes and the context is not empty, /ask makes exactly five calls
    in this order: the rewriting model on the history followed by the
    question, the embedding of the rewritten query, the opening of the
    index and the search on the session's namespace, and the generation
    model on the prompt built from the context and the question as asked.
    The rewritten query reaches neither the prompt nor the history, which
    grows by the question as asked and the answer sent. *)
Theorem answered_ask_calls
  (E : Collaborators) (req : AskRequest) (w : World) (q sid tq : string)
  (s : Session) (v : Vector) (results : list RetrievalResult) :
  passesValidation req w q sid s →
  history s ≠ [] →
  rewriteModel E (history s ++ [userTurn q])%list = Normal tq →
  embedQuery E tq = Normal v →
  fromExistingIndex E (namespace s) = Normal tt →
  similaritySearchVectorWithScore E (namespace s) v 10%nat = Normal results →
  context results ≠ "" →
  ∃ a,
    fst (ask E req w) = Normal {| status := 200; body := AnswerBody a |}
    ∧ callsDuring w (snd (ask E req w))
      = [CallRewrite (history s ++ [userTurn q])%list;
         CallEmbedQuery tq;
         CallFromExistingIndex (namespace s);
         CallSimilaritySearch (namespace s) v 10;
         CallGenerate (prompt q (context results))]
    ∧ sessionStore (snd (ask E req w)) !! sid
      = Some {| namespace := namespace s;
                history := (history s ++ [userTurn q; modelTurn a])%list |}.
Proof.
  intros Hv Hne Hrw He Hi Hr Hctx.
  assert (transformedQuery E q (history s) = tq) as Htq.
  { unfold transformedQuery. rewrite Hrw. by destruct (history s). }
  assert (rewriteCalls q (history s)
          = [CallRewrite (history s ++ [userTurn q])%list]) as Hcalls.
  { unfold rewriteCalls. by destruct (history s). }
  assert (truthy (context results) = true) as Htr
    by by destruct (context results).
  rewrite (ask_eval E req w q sid s Hv). unfold askOutcome.
  rewrite Htq, He, Hi, Hr, Hcalls. unfold generateCalls. rewrite Htr.
  exists (answerOf E q results). cbn [fst snd sessionStore].
  split; [done |]. split; [by rewrite callsDuring_logged |].
  destruct Hv as (_ & _ & _ & _ & Hs). unfold appended.
  rewrite !lookup_alter_eq, Hs. unfold push. simpl.
  by rewrite <- app_assoc.
Qed.

Lemma answered_ask_calls_witness :
  ∃ a,
    fst (ask Sample.healthy Sample.whatIsAlpha Sample.talked)
    = Normal {| status := 200; body := AnswerBody a |}
    ∧ callsDuring Sample.talked
        (snd (ask Sample.healthy Sample.whatIsAlpha Sample.talked))
      = [CallRewrite
           (history Sample.talkedSession ++ [userTurn "alpha?"])%list;
         CallEmbedQuery "what is alpha?";
         CallFromExistingIndex (namespace Sample.talkedSession);
         CallSimilaritySearch (namespace Sample.talkedSession) [1 # 1] 10;
         CallGenerate (prompt "alpha?" (context Sample.mixed))]
    ∧ sessionStore
        (snd (ask Sample.healthy Sample.whatIsAlpha Sample.talked))
      !! Sample.sid
      = Some {| namespace := namespace Sample.talkedSession;
                history := (history Sample.talkedSession
                            ++ [userTurn "alpha?"; modelTurn a])%list |}.
Proof.
  apply (answered_ask_calls Sample.healthy Sample.whatIsAlpha Sample.talked
           "alpha?" Sample.sid "what is alpha?" Sample.talkedSession
           [1 # 1] Sample.mixed).
  - repeat split.
  - discriminate.
  - reflexivity.
  - reflexivity.
  - reflexivity.
  - reflexivity.
  - discriminate.
Defined.

(** ** Context and generation *)

Lemma append_empty_r (a : string) : a +:+ "" = a.
Proof.
  induction a as [|c a IH]; [done |]. by rewrite append_cons, IH.
Qed.

Lemma append_assoc (a b c : string) : (a +:+ b) +:+ c = a +:+ b +:+ c.
Proof.
  induction a as [|x a IH]; [done |]. by rewrite !append_cons, IH.
Qed.

Lemma join_cons_nonempty (sep x : string) (l : list string) :
  x ≠ "" → join sep (x :: l) ≠ "".
Proof.
  intros Hx. destruct x as [|c x]; [done |].
  destruct l; simpl; [done |]. by rewrite append_cons.
Qed.

Lemma join_contains (sep x : string) (l : list string) :
  x ∈ l → ∃ pre post, join sep l = pre +:+ x +:+ post.
Proof.
  induction l as [|y l IH]; intros Hin; [by apply elem_of_nil in Hin |].
  apply elem_of_cons in Hin as [-> | Hin].
  - destruct l as [|z l].
    + exists "", "". simpl. by rewrite append_empty_r.
    + by exists "", (sep +:+ join sep (z :: l)).
  - destruct (IH Hin) as (pre & post & Hj).
    destruct l as [|z l]; [by apply elem_of_nil in Hin |].
    exists (y +:+ sep +:+ pre), post.
    change (join sep (y :: z :: l)) with (y +:+ sep +:+ join sep (z :: l)).
    by rewrite Hj, !append_assoc.
Qed.

Lemma usable_texts (results : list RetrievalResult) :
  filter (fun t => trim t ≠ "")
    ((fun r => pageContent (fst r)) <$> Spec.survivors results)
  = (fun r => pageContent (fst r)) <$> filter usable results.
Proof.
  unfold Spec.survivors, usable.
  induction results as [|r results IH]; [done |].
  rewrite !(filter_cons _ r).
  destruct (decide (¬ Spec.strictlyBelow r)) as [Hs | Hs].
  - rewrite fmap_cons, filter_cons, IH.
    destruct (decide (trim (pageContent (fst r)) ≠ "")) as [Ht | Ht].
    + by rewrite decide_True.
    + rewrite decide_False; [done | by intros [_ ?]].
  - rewrite IH, decide_False; [done | by intros [? _]].
Qed.

Lemma context_usable (results : list RetrievalResult) :
  context results
  = join separator ((fun r => pageContent (fst r)) <$> filter usable results).
Proof.
  rewrite context_assembled. unfold Spec.assembled. by rewrite usable_texts.
Qed.

Lemma context_truthy (results : list RetrievalResult) :
  truthy (context results) = true ↔ Exists usable results.
Proof.
  rewrite context_usable, Exists_exists. split.
  - destruct (filter usable results) as [|r l] eqn:Hf; [done |].
    intros _. exists r.
    assert (r ∈ filter usable results) as Hin by (rewrite Hf; left).
    apply list_elem_of_filter in Hin as [Hu Hin]. done.
  - intros (r & Hin & Hu).
    assert (r ∈ filter usable results) as Hf
      by by apply list_elem_of_filter.
    destruct (filter usable results) as [|r0 l] eqn:Hl;
      [by apply elem_of_nil in Hf |].
    assert (usable r0) as [_ Ht].
    { assert (r0 ∈ filter usable results) as H0 by (rewrite Hl; left).
      by apply list_elem_of_filter in H0 as [? _]. }
    rewrite fmap_cons.
    assert (pageContent (fst r0) ≠ "") as Hne.
    { intros Heq. rewrite Heq in Ht. by apply Ht. }
    apply (join_cons_nonempty separator) with (l := (fun r => pageContent (fst r)) <$> l)
      in Hne.
    by destruct (join separator _).
Qed.

Lemma exists_filter {A} (f : A → bool) (l : list A) :
  Exists (fun x => f x = true) l ↔ List.filter f l ≠ [].
Proof.
  induction l as [|x l IH]; simpl.
  - split; [intros H; by apply Exists_nil in H | done].
  - rewrite Exists_cons, IH. destruct (f x); split; try done.
    + by left.
    + intros [? | ?]; done.
    + by right.
Qed.

(** X14: on a validated /ask request whose retrieval completes, the
    generation model is called exactly when some retrieved result scores at
    least 0.5 and has a text that is not blank, and never more than
    once. *)
Theorem generation_iff_usable
  (E : Collaborators) (req : AskRequest) (w : World) (q sid : string)
  (s : Session) (results : list RetrievalResult) :
  passesValidation req w q sid s →
  retrieves E q s w results →
  (Exists (fun c => isGenerate c = true) (callsDuring w (snd (ask E req w)))
   ↔ Exists (fun r => ¬ (snd r < 1 # 2)%Q
                      ∧ trim (pageContent (fst r)) ≠ "") results)
  ∧ (List.length
       (List.filter isGenerate (callsDuring w (snd (ask E req w))))
     ≤ 1)%nat.
Proof.
  intros Hv Hr. apply retrieves_inv in Hr as (v & He & Hi & Hr).
  rewrite (ask_eval E req w q sid s Hv). unfold askOutcome.
  rewrite He, Hi, Hr. cbn [snd]. rewrite callsDuring_logged.
  pose proof (context_truthy results) as Hctx. unfold usable in Hctx.
  change similarityThreshold with (1 # 2) in Hctx. rewrite <- Hctx.
  rewrite exists_filter.
  assert (List.filter isGenerate (rewriteCalls q (history s)) = []) as Hrw.
  { unfold rewriteCalls. by destruct (history s). }
  rewrite !List.filter_app, Hrw. unfold generateCalls.
  destruct (truthy (context results)); simpl; split; done || lia.
Qed.

Lemma generation_iff_usable_witness :
  (Exists (fun c => isGenerate c = true)
     (callsDuring Sample.fresh
        (snd (ask Sample.healthy Sample.whatIsAlpha Sample.fresh)))
   ↔ Exists (fun r => ¬ (snd r < 1 # 2)%Q
                      ∧ trim (pageContent (fst r)) ≠ "") Sample.mixed)
  ∧ (List.length
       (List.filter isGenerate
          (callsDuring Sample.fresh
             (snd (ask Sample.healthy Sample.whatIsAlpha Sample.fresh))))
     ≤ 1)%nat.
Proof.
  apply (generation_iff_usable Sample.healthy Sample.whatIsAlpha Sample.fresh
           "alpha?" Sample.sid Sample.freshSession Sample.mixed).
  - repeat split.
  - exists "alpha?", Sample.fresh, [1 # 1]. repeat split.
Defined.

(** X15: the text of every retrieved result that scores at least 0.5 and
    is not blank occurs in the context handed to the generation model. *)
Theorem context_contains_usable
  (results : list RetrievalResult) (r : RetrievalResult) :
  r ∈ results →
  ¬ (snd r < 1 # 2)%Q →
  trim (pageContent (fst r)) ≠ "" →
  includes (context results) (pageContent (fst r)) = true.
Proof.
  intros Hin Hscore Htext. rewrite context_usable.
  apply includes_spec, join_contains.
  apply (list_elem_of_fmap_2 (fun r => pageContent (fst r))).
  apply list_elem_of_filter. by split.
Qed.

Lemma context_contains_usable_witness :
  includes (context Sample.mixed) "beta" = true.
Proof.
  apply (context_contains_usable Sample.mixed (Sample.doc "beta", 1 # 2)).
  - unfold Sample.mixed. do 2 right. left.
  - discriminate.
  - discriminate.
Defined.

(** ** Session ids *)

(** X16: two /upload requests answered 200 at different readings of the
    clock return different session ids; after both, each id is registered
    with an empty history and a namespace of its own. *)
Theorem uploads_at_distinct_times
  (E1 E2 : Collaborators) (r1 r2 : UploadRequest) (w : World)
  (m1 m2 sid1 sid2 : string) :
  dateNow E1 ≠ dateNow E2 →
  fst (run [(E1, Upload r1); (E2, Upload r2)] w)
  = [json (UploadBody m1 sid1); json (UploadBody m2 sid2)] →
  let st := sessionStore (snd (run [(E1, Upload r1); (E2, Upload r2)] w)) in
  sid1 ≠ sid2
  ∧ "pdf-" +:+ sid1 ≠ "pdf-" +:+ sid2
  ∧ st !! sid1 = Some {| namespace := "pdf-" +:+ sid1; history := [] |}
  ∧ st !! sid2 = Some {| namespace := "pdf-" +:+ sid2; history := [] |}.
Proof.
  intros Hne Hrun. simpl in *.
  pose proof (upload_answered E1 r1 w m1 sid1) as H1.
  destruct (serve E1 (Upload r1) w) as [res1 w1].
  pose proof (upload_answered E2 r2 w1 m2 sid2) as H2.
  destruct (serve E2 (Upload r2) w1) as [res2 w2].
  simpl in *. injection Hrun as -> ->.
  destruct (H1 eq_refl) as [Hs1 Hst1]. destruct (H2 eq_refl) as [Hs2 Hst2].
  assert (sid1 ≠ sid2) as Hsid.
  { rewrite Hs1, Hs2. intros Heq. by apply (inj pretty) in Heq. }
  split; [done |]. split.
  - intros Heq. by apply (inj (String.app "pdf-")) in Heq.
  - rewrite Hst2, Hst1. split.
    + by rewrite lookup_insert_ne, lookup_insert_eq.
    + by rewrite lookup_insert_eq.
Qed.

Lemma uploads_at_distinct_times_witness :
  let st :=
    sessionStore
      (snd (run [(Sample.healthy, Upload Sample.pdf);
                 (Scenario.later, Upload Sample.pdf)] Sample.boot)) in
  "1700000000000" ≠ "1700000000001"
  ∧ "pdf-" +:+ "1700000000000" ≠ "pdf-" +:+ "1700000000001"
  ∧ st !! "1700000000000"
    = Some {| namespace := "pdf-" +:+ "1700000000000"; history := [] |}
  ∧ st !! "1700000000001"
    = Some {| namespace := "pdf-" +:+ "1700000000001"; history := [] |}.
Proof.
  apply (uploads_at_distinct_times Sample.healthy Scenario.later Sample.pdf
           Sample.pdf Sample.boot "PDF processed successfully"
           "PDF processed successfully" "1700000000000" "1700000000001").
  - discriminate.
  - reflexivity.
Defined.

(** ** Overlapping /ask requests *)

Lemma overlap_extend_nil (sid : string) (st : gmap string Session) :
  alter (Overlap.extend []) sid st = st.
Proof.
  apply map_eq. intros i. rewrite lookup_alter.
  destruct (decide (sid = i)) as [-> | _]; [| done].
  destruct (st !! i) as [[ns h]|]; [| done].
  unfold Overlap.extend. simpl. by rewrite app_nil_r.
Qed.

Lemma overlap_extend_pair (sid q a : string) (st : gmap string Session) :
  alter (Overlap.extend [userTurn q; modelTurn a]) sid st
  = appended sid q a st.
Proof.
  unfold appended. apply map_eq. intros i.
  destruct (decide (sid = i)) as [-> | Hne].
  - rewrite !lookup_alter_eq. destruct (st !! i) as [[ns h]|]; [| done].
    unfold Overlap.extend, push. simpl. by rewrite <- app_assoc.
  - by rewrite !lookup_alter_ne.
Qed.

(** A request that ends before any other request begins or ends does to
    the store what [serve] does: [run] is the schedule without overlap. *)
Lemma overlap_sequential (E : Collaborators) (req : AskRequest)
  (f : Overlap.State) :
  Overlap.store
    (Overlap.step (Overlap.step f (Overlap.Begin E req))
       (Overlap.End (List.length (Overlap.inflight f))))
  = sessionStore
      (snd (serve E (Ask req)
              {| sessionStore := Overlap.store f; calls := [] |})).
Proof.
  set (w := {| sessionStore := Overlap.store f; calls := [] |}).
  cbn [Overlap.step Overlap.inflight Overlap.store].
  rewrite list_lookup_middle by done.
  cbn [Overlap.store]. unfold Overlap.pushes, Overlap.answer, Overlap.target.
  cbn [Overlap.begin Overlap.asked Overlap.reply]. fold w.
  destruct (passesValidation_dec req w) as [(q & sid & s & Hv) | Hno].
  - rewrite (serve_valid E req w q sid s Hv).
    destruct Hv as (Hq & Hsid & _). rewrite Hq, Hsid.
    destruct (askOutcome_cases E q sid s (sessionStore w))
      as [(e & l & ->) | (a & l & ->)]; simpl.
    + apply overlap_extend_nil.
    + apply overlap_extend_pair.
  - destruct (ask_invalid E req w Hno) as [msg Hask].
    rewrite (serve_ask _ _ _ _ _ Hask). simpl.
    destruct (question req); apply overlap_extend_nil.
Qed.

Lemma overlap_answeredOn_app (sid : string) (l1 l2 : list Overlap.Pending) :
  Overlap.answeredOn sid (l1 ++ l2)
  = (Overlap.answeredOn sid l1 ++ Overlap.answeredOn sid l2)%list.
Proof. unfold Overlap.answeredOn. by rewrite filter_app, omap_app. Qed.

Lemma overlap_step_history (sid : string) (f : Overlap.State)
  (a : Overlap.Action) :
  ∃ new,
    Overlap.completed (Overlap.step f a)
    = (Overlap.completed f ++ new)%list
    ∧ history <$> Overlap.store (Overlap.step f a) !! sid
      = (fun h => (h ++ turnsOf (Overlap.answeredOn sid new))%list)
        <$> (history <$> Overlap.store f !! sid).
Proof.
  assert (∀ o : option (list Turn),
            o = (fun h => (h ++ [])%list) <$> o) as Hid.
  { intros [h|]; simpl; by rewrite ?app_nil_r. }
  destruct a as [E req | k]; simpl.
  - exists []. rewrite app_nil_r. split; [done |]. exact (Hid _).
  - destruct (Overlap.inflight f !! k) as [[p|]|]; simpl;
      [| exists []; rewrite app_nil_r; split; [done | exact (Hid _)]..].
    exists [p]. split; [done |].
    unfold Overlap.answeredOn. rewrite filter_cons, filter_nil.
    destruct (decide (Overlap.target p = sid)) as [Heq | Hne].
    + rewrite Heq, lookup_alter_eq.
      destruct (Overlap.store f !! sid) as [s|]; [| done].
      simpl. unfold Overlap.pushes.
      by destruct (Overlap.answer p) as [[q a]|].
    + rewrite lookup_alter_ne by done. exact (Hid _).
Qed.

Lemma overlap_interleave_history (sid : string)
  (actions : list Overlap.Action) :
  ∀ f,
    ∃ new,
      Overlap.completed (Overlap.interleave actions f)
      = (Overlap.completed f ++ new)%list
      ∧ history <$> Overlap.store (Overlap.interleave actions f) !! sid
        = (fun h => (h ++ turnsOf (Overlap.answeredOn sid new))%list)
          <$> (history <$> Overlap.store f !! sid).
Proof.
  induction actions as [|a actions IH]; intros f.
  - exists []. rewrite app_nil_r. split; [done |]. simpl.
    destruct (Overlap.store f !! sid); simpl; by rewrite ?app_nil_r.
  - destruct (overlap_step_history sid f a) as (new1 & Hc1 & Hh1).
    destruct (IH (Overlap.step f a)) as (new2 & Hc2 & Hh2).
    exists (new1 ++ new2)%list. change (Overlap.interleave (a :: actions) f)
      with (Overlap.interleave actions (Overlap.step f a)).
    rewrite Hc2, Hc1, Hh2, Hh1, overlap_answeredOn_app, turnsOf_app.
    split; [by rewrite app_assoc |].
    destruct (Overlap.store f !! sid); simpl; [| done].
    by rewrite <- app_assoc.
Qed.

(** X17: however /ask requests on a store overlap, the history of a
    session after the schedule is its history before it followed by one
    user turn and one model turn for each question answered on the
    session, in the order in which the requests completed (which need not
    be the order in which they began). *)
Theorem overlap_history_in_completion_order
  (sid : string) (actions : list Overlap.Action) (st : gmap string Session) :
  let final := Overlap.interleave actions (Overlap.start st) in
  history <$> Overlap.store final !! sid
  = (fun h =>
       (h ++ turnsOf (Overlap.answeredOn sid (Overlap.completed final)))%list)
    <$> (history <$> st !! sid).
Proof.
  intros final.
  destruct (overlap_interleave_history sid actions (Overlap.start st))
    as (new & Hc & Hh).
  fold final in Hc, Hh. simpl in Hc. by rewrite Hc.
Qed.

(** Two questions on one fresh session: "alpha?" begins first, "beta?"
    begins before "alpha?" has ended and ends first.  Both find an empty
    history; the history ends with the turns of "beta?" before those of
    "alpha?". *)
Lemma overlap_history_in_completion_order_witness :
  let actions :=
    [Overlap.Begin Sample.healthy Sample.whatIsAlpha;
     Overlap.Begin Sample.lowScores Overlap.betaQuestion;
     Overlap.End 1; Overlap.End 0] in
  let final :=
    Overlap.interleave actions
      (Overlap.start {[ Sample.sid := Sample.freshSession ]}) in
  Overlap.asked <$> Overlap.completed final
  = [Overlap.betaQuestion; Sample.whatIsAlpha]
  ∧ history <$> Overlap.store final !! Sample.sid
    = Some [userTurn "beta?";
            modelTurn "I couldn't find the answer in the document.";
            userTurn "alpha?"; modelTurn "Alpha is the first letter."].
Proof.
  intros actions final. split; [reflexivity |].
  etrans;
    [apply (overlap_history_in_completion_order Sample.sid actions
              {[ Sample.sid := Sample.freshSession ]}) |].
  reflexivity.
Defined.
